(** * video-library: VideoDecoder and VideoEncoder

    A shallow embedding of [src/video-decoder.cpp] and
    [src/video-encoder.cpp].  The two classes drive FFmpeg (libavformat,
    libavcodec, libswscale, libavutil); the library is an external
    collaborator, so every library call is modelled by what the classes can
    observe of it: its return code, the handle it yields, the resource it
    acquires or releases, and the calls issued to the muxer.  The classes
    themselves are translated statement by statement. *)

From Stdlib Require Import ZArith List String Bool Lia Arith.
Import ListNotations.
Open Scope string_scope.
Open Scope list_scope.
Open Scope Z_scope.

(** ** libavutil: error codes, rationals and rescaling *)

Module Av.

Definition INT_MAX : Z := 2147483647.
Definition INT32_MAX : Z := 2147483647.
Definition INT64_MAX : Z := 9223372036854775807.
Definition INT64_MIN : Z := -9223372036854775808.

(** [int64_t] wrap-around: the value of an out-of-range result after the
    conversion to the signed 64-bit type. *)
Definition wrap64 (x : Z) : Z := (x + 2 ^ 63) mod 2 ^ 64 - 2 ^ 63.

Definition EAGAIN : Z := 11.
Definition AVERROR (e : Z) : Z := - e.
(** [FFERRTAG('E','O','F',' ')] *)
Definition AVERROR_EOF : Z := -541478725.

Definition AV_TIME_BASE : Z := 1000000.

Definition AVMEDIA_TYPE_VIDEO : Z := 0.
Definition AV_PIX_FMT_YUV420P : Z := 0.
Definition AV_PIX_FMT_RGB24 : Z := 2.

Record AVRational := mkRational { num : Z; den : Z }.

Definition AV_TIME_BASE_Q : AVRational := mkRational 1 AV_TIME_BASE.

(** Modelled from the spec: the exact rational rescaling helper
    ([av_rescale_q] of libavutil) is not part of src/.  It is written out
    after libavutil's integer algorithm for the rounding mode
    [av_rescale_q] uses (nearest, halves away from zero): no floating-point
    step, [INT64_MIN] on an invalid denominator or on overflow.  The
    operands of every division below are non-negative, where C's
    truncating division and [Z.div] agree. *)
Definition rescale_nonneg (a b c : Z) : Z :=
  let r := c / 2 in
  if (b <=? INT_MAX) && (c <=? INT_MAX) then
    if a <=? INT_MAX then (a * b + r) / c
    else
      let ad := a / c in
      let a2 := (a mod c * b + r) / c in
      if (INT32_MAX <=? ad) && negb (b =? 0) && ((INT64_MAX - a2) / b <? ad)
      then INT64_MIN
      else ad * b + a2
  else
    (* 128-bit multiplication followed by long division *)
    let t1 := (a * b + r) / c in
    if INT64_MAX <? t1 then INT64_MIN else t1.

Definition av_rescale_rnd (a b c : Z) : Z :=
  if (c <=? 0) || (b <? 0) then INT64_MIN
  else if a <? 0
       then wrap64 (- rescale_nonneg (- Z.max a (- INT64_MAX)) b c)
       else rescale_nonneg a b c.

Definition av_rescale_q (a : Z) (bq cq : AVRational) : Z :=
  let b := num bq * den cq in
  let c := num cq * den bq in
  av_rescale_rnd a b c.

(** The mathematical value [av_rescale_rnd] computes on non-negative
    input: [a * b / c] rounded to the nearest integer, halves upwards. *)
Definition round_div (a b c : Z) : Z := (a * b + c / 2) / c.

End Av.

Import Av.

(** Outcome of a call that can throw [std::runtime_error(msg)]. *)
Inductive Outcome (A : Type) : Type :=
| Ok (a : A)
| Throw (msg : string).
Arguments Ok {A} a.
Arguments Throw {A} msg.

(** Resources handed out by FFmpeg that the owner must release. *)
Inductive Resource : Type :=
| RFormatContext   (* avformat_alloc_output_context2 / avformat_open_input *)
| ROutputFile      (* avio_open *)
| RCodecContext    (* avcodec_alloc_context3 *)
| RFrame           (* av_frame_alloc *)
| RPacket          (* av_packet_alloc *)
| RSwsContext.     (* sws_getContext *)

Definition Resource_eqb (a b : Resource) : bool :=
  match a, b with
  | RFormatContext, RFormatContext | ROutputFile, ROutputFile
  | RCodecContext, RCodecContext | RFrame, RFrame
  | RPacket, RPacket | RSwsContext, RSwsContext => true
  | _, _ => false
  end.

Definition acquire (r : Resource) (live : list Resource) : list Resource :=
  r :: live.

Fixpoint release (r : Resource) (live : list Resource) : list Resource :=
  match live with
  | [] => []
  | x :: rest => if Resource_eqb r x then rest else x :: release r rest
  end.

(** ** VideoEncoder (src/video-encoder.cpp) *)

Module Encoder.

(** Calls issued to the muxer of the output container. *)
Inductive MuxCall : Type :=
| WriteHeader     (* avformat_write_header *)
| WriteFrame      (* av_interleaved_write_frame *)
| WriteTrailer.   (* av_write_trailer *)

Definition MuxCall_eqb (a b : MuxCall) : bool :=
  match a, b with
  | WriteHeader, WriteHeader | WriteFrame, WriteFrame
  | WriteTrailer, WriteTrailer => true
  | _, _ => false
  end.

(** The geometry a conversion context was created for. *)
Record SwsContext := mkSws {
  srcW : Z; srcH : Z; srcFormat : Z;
  dstW : Z; dstH : Z; dstFormat : Z
}.

(** One [sws_scale] call: the context used, and the source stride and
    slice height passed with the caller's buffer. *)
Record ScaleCall := mkScale {
  scale_ctx : SwsContext;
  scale_stride : Z;
  scale_height : Z
}.

(** What the encoder can observe of FFmpeg: the resources held, the calls
    issued to the muxer and to the converter, the contexts
    [sws_getContext] has handed out, whether the encoder was sent the
    end-of-stream sentinel, and the scripts: the return codes of the coming
    [avcodec_send_frame], [avcodec_receive_packet] and [sws_getContext]
    calls in call order. *)
Record World := mkWorld {
  live : list Resource;
  mux_calls : list MuxCall;
  scale_calls : list ScaleCall;
  sws_created : list SwsContext;
  draining : bool;
  send_script : list Z;
  recv_script : list Z;
  sws_script : list bool
}.

Definition set_live (l : list Resource) (w : World) : World :=
  mkWorld l (mux_calls w) (scale_calls w) (sws_created w) (draining w)
          (send_script w) (recv_script w) (sws_script w).
Definition set_mux_calls (m : list MuxCall) (w : World) : World :=
  mkWorld (live w) m (scale_calls w) (sws_created w) (draining w)
          (send_script w) (recv_script w) (sws_script w).
Definition set_scale_calls (c : list ScaleCall) (w : World) : World :=
  mkWorld (live w) (mux_calls w) c (sws_created w) (draining w)
          (send_script w) (recv_script w) (sws_script w).
Definition set_sws_created (c : list SwsContext) (w : World) : World :=
  mkWorld (live w) (mux_calls w) (scale_calls w) c (draining w)
          (send_script w) (recv_script w) (sws_script w).
Definition set_draining (d : bool) (w : World) : World :=
  mkWorld (live w) (mux_calls w) (scale_calls w) (sws_created w) d
          (send_script w) (recv_script w) (sws_script w).
Definition set_send_script (s : list Z) (w : World) : World :=
  mkWorld (live w) (mux_calls w) (scale_calls w) (sws_created w) (draining w)
          s (recv_script w) (sws_script w).
Definition set_recv_script (s : list Z) (w : World) : World :=
  mkWorld (live w) (mux_calls w) (scale_calls w) (sws_created w) (draining w)
          (send_script w) s (sws_script w).
Definition set_sws_script (s : list bool) (w : World) : World :=
  mkWorld (live w) (mux_calls w) (scale_calls w) (sws_created w) (draining w)
          (send_script w) (recv_script w) s.

Definition acquire_in (r : Resource) (w : World) : World :=
  set_live (acquire r (live w)) w.
Definition release_in (r : Resource) (w : World) : World :=
  set_live (release r (live w)) w.
Definition mux (c : MuxCall) (w : World) : World :=
  set_mux_calls (mux_calls w ++ [c]) w.

(** *** The FFmpeg calls of the encoder *)

(** Modelled from the spec: the encode capability of section 6
    ([submitPictureForEncode]) is not part of src/.
    [avcodec_send_frame(ctx, frame)], [sentinel] being the [nullptr] frame:
    the next scripted code, or acceptance once the script is used up; an
    accepted sentinel starts the flush, after which every submit reports
    "end of stream". *)
Definition avcodec_send_frame (sentinel : bool) (w : World) : Z * World :=
  if draining w then (AVERROR_EOF, w)
  else
    let ret := hd 0 (send_script w) in
    let w1 := set_send_script (tl (send_script w)) w in
    (ret, if sentinel && (0 <=? ret) then set_draining true w1 else w1).

(** Modelled from the spec: the encode capability of section 6
    ([drainEncodedUnit]) is not part of src/.
    [avcodec_receive_packet(ctx, pkt)]: the next scripted code; once the
    script is used up, "not ready", or "end of stream" during a flush. *)
Definition avcodec_receive_packet (w : World) : Z * World :=
  match recv_script w with
  | [] => (if draining w then AVERROR_EOF else AVERROR EAGAIN, w)
  | ret :: rest => (ret, set_recv_script rest w)
  end.

(** [av_interleaved_write_frame(fmt, pkt); av_packet_unref(pkt);] (the
    return code is not looked at). *)
Definition av_interleaved_write_frame (w : World) : World := mux WriteFrame w.

(** [av_write_trailer(fmt)] (the return code is not looked at). *)
Definition av_write_trailer (w : World) : World := mux WriteTrailer w.

(** Modelled from the spec: the pixel conversion capability of section 6
    ([createContext]) is not part of src/.
    [sws_getContext(srcW, srcH, srcFormat, dstW, dstH, dstFormat, ...)]:
    fails when the script says so, else yields a context for the geometry
    asked for. *)
Definition sws_getContext (sw sh sf dw dh df : Z) (w : World)
  : option SwsContext * World :=
  let ok := hd true (sws_script w) in
  let w1 := set_sws_script (tl (sws_script w)) w in
  if ok then
    let c := mkSws sw sh sf dw dh df in
    (Some c, set_sws_created (sws_created w1 ++ [c]) (acquire_in RSwsContext w1))
  else (None, w1).

(** [sws_freeContext(ctx)]: nothing happens on [nullptr]. *)
Definition sws_freeContext (ctx : option SwsContext) (w : World) : World :=
  match ctx with
  | None => w
  | Some _ => release_in RSwsContext w
  end.

(** [sws_scale(ctx, src_slices, src_stride, 0, height, ...)] *)
Definition sws_scale (ctx : SwsContext) (stride height : Z) (w : World) : World :=
  set_scale_calls (scale_calls w ++ [mkScale ctx stride height]) w.

(** *** The object *)

Record AVFormatContext := mkFormat {
  AVFMT_NOFILE : bool;          (* oformat->flags & AVFMT_NOFILE *)
  AVFMT_GLOBALHEADER : bool     (* oformat->flags & AVFMT_GLOBALHEADER *)
}.

(** The encoder settings the constructor writes; [framerate], set from
    [av_d2q(fps, 100000)], is read nowhere in the class and is left out. *)
Record AVCodecContext := mkCodec {
  width : Z;
  height : Z;
  time_base : AVRational;
  gop_size : Z;
  pix_fmt : Z;
  bit_rate : Z;
  AV_CODEC_FLAG_GLOBAL_HEADER : bool
}.

Record AVStream := mkStream { stream_time_base : AVRational }.

Record AVFrame := mkFrame {
  format : Z;
  frame_width : Z;
  frame_height : Z;
  pts : Z
}.

(** The members of a fully constructed [VideoEncoder].  After the
    constructor returns, every pointer member but [m_sws_context] is
    non-null; [m_packet] carries nothing the class reads. *)
Record VideoEncoder := mkEncoder {
  m_format_context : AVFormatContext;
  m_codec_context : AVCodecContext;
  m_stream : AVStream;
  m_frame : AVFrame;
  m_sws_context : option SwsContext;
  m_finalized : bool;
  m_pts : Z
}.

Definition set_m_frame (f : AVFrame) (e : VideoEncoder) : VideoEncoder :=
  mkEncoder (m_format_context e) (m_codec_context e) (m_stream e) f
            (m_sws_context e) (m_finalized e) (m_pts e).
Definition set_m_sws_context (c : option SwsContext) (e : VideoEncoder) : VideoEncoder :=
  mkEncoder (m_format_context e) (m_codec_context e) (m_stream e) (m_frame e)
            c (m_finalized e) (m_pts e).
Definition set_m_finalized (b : bool) (e : VideoEncoder) : VideoEncoder :=
  mkEncoder (m_format_context e) (m_codec_context e) (m_stream e) (m_frame e)
            (m_sws_context e) b (m_pts e).
Definition set_m_pts (p : Z) (e : VideoEncoder) : VideoEncoder :=
  mkEncoder (m_format_context e) (m_codec_context e) (m_stream e) (m_frame e)
            (m_sws_context e) (m_finalized e) p.
Definition set_pts (p : Z) (f : AVFrame) : AVFrame :=
  mkFrame (format f) (frame_width f) (frame_height f) p.

(** *** Constructor *)

(** The results of the library calls the constructor makes, each made at
    most once.  [fps_milli] is [static_cast<int>(lround(fps * 1000))], the
    one floating-point step of the constructor; [muxer_time_base] is the
    stream time base [avformat_write_header] leaves in the stream, given
    the one the caller proposed. *)
Record CtorEnv := mkCtorEnv {
  alloc_output_context : option AVFormatContext;
  avio_open_ret : Z;
  encoder_found : bool;
  new_stream_ok : bool;
  alloc_context_ok : bool;
  open2_ret : Z;
  parameters_from_context_ret : Z;
  write_header_ret : Z;
  muxer_time_base : AVRational -> AVRational;
  frame_alloc_ok : bool;
  frame_get_buffer_ret : Z;
  packet_alloc_ok : bool
}.

(** [VideoEncoder::VideoEncoder(filepath, width, height, fps, bitrate)].
    A [throw] leaves the constructor at once: no statement of it releases
    anything, and the destructor of an object whose constructor threw does
    not run. *)
Definition VideoEncoder_new (env : CtorEnv) (width height fps_milli bitrate : Z)
    (w : World) : Outcome VideoEncoder * World :=
  match alloc_output_context env with
  | None => (Throw "Could not allocate output format context", w)
  | Some fmt =>
    let w := acquire_in RFormatContext w in
    let opened := negb (AVFMT_NOFILE fmt) in
    if opened && (avio_open_ret env <? 0)
    then (Throw "Could not open output file", w)
    else
    let w := if opened then acquire_in ROutputFile w else w in
    if negb (encoder_found env) then (Throw "Could not find encoder", w) else
    if negb (new_stream_ok env) then (Throw "Could not create new stream", w) else
    if negb (alloc_context_ok env)
    then (Throw "Could not allocate video codec context", w) else
    let w := acquire_in RCodecContext w in
    let codec := mkCodec width height (mkRational 1000 fps_milli) 12
                         AV_PIX_FMT_YUV420P bitrate (AVFMT_GLOBALHEADER fmt) in
    if open2_ret env <? 0 then (Throw "Could not open codec", w) else
    if parameters_from_context_ret env <? 0
    then (Throw "Could not copy codec parameters to stream", w) else
    let stream := mkStream (time_base codec) in
    let w := mux WriteHeader w in
    if write_header_ret env <? 0 then (Throw "Could not write format header", w) else
    let stream := mkStream (muxer_time_base env (stream_time_base stream)) in
    if negb (frame_alloc_ok env) then (Throw "Could not allocate video frame", w) else
    let w := acquire_in RFrame w in
    let frame := mkFrame (pix_fmt codec) width height 0 in
    if frame_get_buffer_ret env <? 0
    then (Throw "Could not allocate frame buffer", w) else
    if negb (packet_alloc_ok env) then (Throw "Could not allocate packet", w) else
    let w := acquire_in RPacket w in
    (Ok (mkEncoder fmt codec stream frame None false 0), w)
  end.

(** *** The submit/drain loops *)

Inductive DrainExit : Type :=
| DrainNotReady    (* break: AVERROR(EAGAIN) *)
| DrainFlushed     (* return: AVERROR_EOF *)
| DrainError.      (* throw *)

(** [while (true) { ret = avcodec_receive_packet(...); ... }] of
    [encodeFrame(AVFrame *frame)].  Every iteration that goes round again has
    taken a code from the script, so [S (length (recv_script w))]
    iterations are enough ([receive_loop_enough]). *)
Fixpoint receive_loop (fuel : nat) (w : World) : DrainExit * World :=
  match fuel with
  | O => (DrainNotReady, w)
  | S k =>
    let (ret, w1) := avcodec_receive_packet w in
    if ret =? AVERROR EAGAIN then (DrainNotReady, w1)
    else if ret =? AVERROR_EOF then (DrainFlushed, w1)
    else if ret <? 0 then (DrainError, w1)
    else receive_loop k (av_interleaved_write_frame w1)
  end.

Definition receive_all (w : World) : DrainExit * World :=
  receive_loop (S (List.length (recv_script w))) w.

Inductive SendExit : Type :=
| SendAccepted            (* break: the frame was taken *)
| SendReturn              (* return *)
| SendThrow (msg : string).

(** The first [while (true)] of [encodeFrame(AVFrame *frame)]. *)
Fixpoint send_loop (fuel : nat) (w : World) : SendExit * World :=
  match fuel with
  | O => (SendAccepted, w)
  | S k =>
    let (ret, w1) := avcodec_send_frame false w in
    if ret =? AVERROR EAGAIN then
      match receive_all w1 with
      | (DrainNotReady, w2) => send_loop k w2
      | (DrainFlushed, w2) => (SendReturn, w2)
      | (DrainError, w2) => (SendThrow "Error receiving packet from encoder", w2)
      end
    else if ret =? AVERROR_EOF then (SendReturn, w1)
    else if ret <? 0 then (SendThrow "Error sending frame to encoder", w1)
    else (SendAccepted, w1)
  end.

Definition send_all (w : World) : SendExit * World :=
  send_loop (S (List.length (send_script w))) w.

(** [void VideoEncoder::encodeFrame(AVFrame* frame)], the private
    overload; its only caller passes [m_frame].  [m_pts++] is written with
    the wrap-around of [int64_t]. *)
Definition encodeFrame_AVFrame (e : VideoEncoder) (w : World)
  : Outcome unit * VideoEncoder * World :=
  let p := av_rescale_q (m_pts e) (time_base (m_codec_context e))
                        (stream_time_base (m_stream e)) in
  let e := set_m_pts (wrap64 (m_pts e + 1)) e in
  let e := set_m_frame (set_pts p (m_frame e)) e in
  match send_all w with
  | (SendReturn, w1) => (Ok tt, e, w1)
  | (SendThrow msg, w1) => (Throw msg, e, w1)
  | (SendAccepted, w1) =>
    match receive_all w1 with
    | (DrainError, w2) => (Throw "Error receiving packet from encoder", e, w2)
    | (_, w2) => (Ok tt, e, w2)
    end
  end.

(** [void VideoEncoder::encodeFrame(const uint8_t *rgb_buffer, int width,
    int height)] *)
Definition encodeFrame (width height : Z) (e : VideoEncoder) (w : World)
  : Outcome unit * VideoEncoder * World :=
  let rebuild :=
    match m_sws_context e with
    | None => true
    | Some _ => negb (width =? frame_width (m_frame e))
                || negb (height =? frame_height (m_frame e))
    end in
  let '(ctx, e, w) :=
    if rebuild then
      let w := sws_freeContext (m_sws_context e) w in
      let (c, w) := sws_getContext width height AV_PIX_FMT_RGB24
                      (frame_width (m_frame e)) (frame_height (m_frame e))
                      (pix_fmt (m_codec_context e)) w in
      (c, set_m_sws_context c e, w)
    else (m_sws_context e, e, w) in
  match ctx with
  | None => (Throw "Failed to create scaling context", e, w)
  | Some c =>
    let w := sws_scale c (3 * width) height w in
    encodeFrame_AVFrame e w
  end.

(** The flush loop of [finalize]: only [AVERROR_EOF] and [AVERROR(EAGAIN)]
    leave it; after any other code the packet is handed to the muxer. *)
Fixpoint flush_loop (fuel : nat) (w : World) : World :=
  match fuel with
  | O => w
  | S k =>
    let (ret, w1) := avcodec_receive_packet w in
    if (ret =? AVERROR_EOF) || (ret =? AVERROR EAGAIN) then w1
    else flush_loop k (av_interleaved_write_frame w1)
  end.

(** [void VideoEncoder::finalize()] *)
Definition finalize (e : VideoEncoder) (w : World) : VideoEncoder * World :=
  if negb (m_finalized e) then
    let (_, w) := avcodec_send_frame true w in
    let w := flush_loop (S (List.length (recv_script w))) w in
    let w := av_write_trailer w in
    (set_m_finalized true e, w)
  else (e, w).

(** [VideoEncoder::~VideoEncoder()]: the world the object leaves behind. *)
Definition VideoEncoder_delete (e : VideoEncoder) (w : World) : World :=
  let (e, w) := finalize e w in
  let w := match m_sws_context e with
           | Some _ => release_in RSwsContext w
           | None => w
           end in
  let w := release_in RFrame w in
  let w := release_in RPacket w in
  let w := release_in RCodecContext w in
  let w := if negb (AVFMT_NOFILE (m_format_context e))
           then release_in ROutputFile w else w in
  release_in RFormatContext w.

(** A caller's use of one encoder: a sequence of public calls, each
    applied to the state the previous one left, whether it threw or not. *)
Inductive Call : Type :=
| CallEncodeFrame (width height : Z)
| CallFinalize.

Definition call (c : Call) (e : VideoEncoder) (w : World) : VideoEncoder * World :=
  match c with
  | CallEncodeFrame width height =>
      let '(_, e', w') := encodeFrame width height e w in (e', w')
  | CallFinalize => finalize e w
  end.

Fixpoint calls (cs : list Call) (e : VideoEncoder) (w : World)
  : VideoEncoder * World :=
  match cs with
  | [] => (e, w)
  | c :: rest => let (e', w') := call c e w in calls rest e' w'
  end.

Definition trailers (w : World) : nat :=
  List.length (filter (MuxCall_eqb WriteTrailer) (mux_calls w)).

(** The trailer count and the finalized flag go together. *)
Definition trailer_flag (e : VideoEncoder) (w : World) : Prop :=
  trailers w = if m_finalized e then 1%nat else 0%nat.

(** The timestamps given to the frame by [n] consecutive submissions. *)
Fixpoint submitted_pts (n : nat) (e : VideoEncoder) (w : World) : list Z :=
  match n with
  | O => []
  | S k => let '(_, e', w') := encodeFrame_AVFrame e w in
           pts (m_frame e') :: submitted_pts k e' w'
  end.

(** The resources a constructed encoder holds, most recent first. *)
Definition owned (e : VideoEncoder) : list Resource :=
  (match m_sws_context e with Some _ => [RSwsContext] | None => [] end)
  ++ [RPacket; RFrame; RCodecContext]
  ++ (if AVFMT_NOFILE (m_format_context e) then [] else [ROutputFile])
  ++ [RFormatContext].

(** The codes at the head of a drain script that the flush loop of
    [finalize] treats as packets: all up to the first [AVERROR_EOF] or
    [AVERROR(EAGAIN)]. *)
Fixpoint flushed_packets (rs : list Z) : nat :=
  match rs with
  | [] => O
  | ret :: rest =>
      if (ret =? AVERROR_EOF) || (ret =? AVERROR EAGAIN) then O
      else S (flushed_packets rest)
  end.

(** A call that feeds frames of the given geometry, or finalizes. *)
Definition feeds (width height : Z) (c : Call) : Prop :=
  match c with
  | CallEncodeFrame wd ht => wd = width /\ ht = height
  | CallFinalize => True
  end.

(** The conversion context [encodeFrame] asks for, for input of the given
    geometry. *)
Definition context_for (width height : Z) (e : VideoEncoder) : SwsContext :=
  mkSws width height AV_PIX_FMT_RGB24
        (frame_width (m_frame e)) (frame_height (m_frame e))
        (pix_fmt (m_codec_context e)).

(** What the submit/drain loops may change of the world beside the codec
    scripts: they hand packets to the muxer and do nothing else. *)
Definition writes_packets_only (w w' : World) : Prop :=
  live w' = live w /\ scale_calls w' = scale_calls w
  /\ sws_created w' = sws_created w /\ sws_script w' = sws_script w
  /\ exists k, mux_calls w' = mux_calls w ++ repeat WriteFrame k.

(** A conversion on an encoder of the given output geometry and pixel
    format: the context converts RGB24 into that output, and the input
    handed to it has the geometry the context was made for, or else the
    geometry of the output. *)
Definition conversion_fits (width height pixfmt : Z) (sc : ScaleCall) : Prop :=
  dstW (scale_ctx sc) = width /\ dstH (scale_ctx sc) = height
  /\ dstFormat (scale_ctx sc) = pixfmt
  /\ srcFormat (scale_ctx sc) = AV_PIX_FMT_RGB24
  /\ ((scale_stride sc = 3 * srcW (scale_ctx sc)
       /\ scale_height sc = srcH (scale_ctx sc))
      \/ (scale_stride sc = 3 * width /\ scale_height sc = height)).

(** The state a session keeps about its conversions, from the logs
    [calls0] and [created0] on. *)
Record converting (width height pixfmt : Z) (calls0 : list ScaleCall)
    (e : VideoEncoder) (w : World) : Prop := mkConverting {
  conv_width : frame_width (m_frame e) = width;
  conv_height : frame_height (m_frame e) = height;
  conv_pixfmt : pix_fmt (m_codec_context e) = pixfmt;
  conv_context : forall c, m_sws_context e = Some c ->
      dstW c = width /\ dstH c = height /\ dstFormat c = pixfmt
      /\ srcFormat c = AV_PIX_FMT_RGB24;
  conv_calls : exists new,
      scale_calls w = calls0 ++ new
      /\ Forall (conversion_fits width height pixfmt) new
}.

(** The state of a session fed frames of the output geometry only: at
    most one context, [c0], has been created since [created0], and every
    conversion since [calls0] is the call [sc0]. *)
Record steady (c0 : SwsContext) (sc0 : ScaleCall)
    (created0 : list SwsContext) (calls0 : list ScaleCall)
    (e : VideoEncoder) (w : World) : Prop := mkSteady {
  steady_context :
    (m_sws_context e = None /\ sws_created w = created0)
    \/ (m_sws_context e = Some c0 /\ sws_created w = created0 ++ [c0]);
  steady_calls : exists new,
      scale_calls w = calls0 ++ new /\ Forall (eq sc0) new
}.

End Encoder.

(** ** VideoDecoder (src/video-decoder.cpp) *)

Module Decoder.

Record AVStream := mkStream {
  codec_type : Z;               (* codecpar->codec_type *)
  codec_id : Z;                 (* codecpar->codec_id *)
  par_width : Z;                (* codecpar->width *)
  par_height : Z;               (* codecpar->height *)
  bit_rate : Z;                 (* codecpar->bit_rate *)
  time_base : AVRational;
  duration : Z
}.

Record AVFrame := mkFrame {
  frame_width : Z;
  frame_height : Z;
  format : Z;
  best_effort_timestamp : Z
}.

Record AVPacket := mkPacket { stream_index : Z }.

(** A demuxer handle.  [read_script] holds the results of the coming
    [av_read_frame] calls (return code, stream index of the packet) and
    [seek_script] the codes of the coming [av_seek_frame] calls, in call
    order; [seeks_issued] records the positions asked for. *)
Record AVFormatContext := mkFormat {
  streams : list AVStream;
  read_script : list (Z * Z);
  seek_script : list Z;
  seeks_issued : list Z
}.

(** A decoder handle.  [draining] says that the end-of-input sentinel
    was submitted; [send_script] holds the return codes of the coming
    [avcodec_send_packet] calls with a packet, [recv_script] the results of
    the coming [avcodec_receive_frame] calls (return code, picture). *)
Record AVCodecContext := mkCodec {
  width : Z;
  height : Z;
  draining : bool;
  send_script : list Z;
  recv_script : list (Z * AVFrame)
}.

Record VideoDecoder := mkDecoder {
  m_format_context : AVFormatContext;
  m_codec_context : AVCodecContext;
  m_video_stream_index : Z;
  m_packet : AVPacket;
  m_frame : AVFrame
}.

(** State of the process outside any one decoder: the function-local
    [static bool hasPendingFrames] of [getNextFrame(AVFrame **out_frame)], the
    results of the coming [sws_getContext] calls (a context is created
    once the script is used up), the pictures converted into a caller's
    buffer, and the resources held. *)
Record Process := mkProcess {
  hasPendingFrames : bool;
  sws_script : list bool;
  rgb_written : list AVFrame;
  live : list Resource
}.

Definition initial_process : Process := mkProcess false [] [] [].

Definition set_hasPendingFrames (b : bool) (p : Process) : Process :=
  mkProcess b (sws_script p) (rgb_written p) (live p).
Definition set_live (l : list Resource) (p : Process) : Process :=
  mkProcess (hasPendingFrames p) (sws_script p) (rgb_written p) l.
Definition acquire_in (r : Resource) (p : Process) : Process :=
  set_live (acquire r (live p)) p.
Definition release_in (r : Resource) (p : Process) : Process :=
  set_live (release r (live p)) p.

Definition set_format (f : AVFormatContext) (d : VideoDecoder) : VideoDecoder :=
  mkDecoder f (m_codec_context d) (m_video_stream_index d) (m_packet d) (m_frame d).
Definition set_codec (c : AVCodecContext) (d : VideoDecoder) : VideoDecoder :=
  mkDecoder (m_format_context d) c (m_video_stream_index d) (m_packet d) (m_frame d).
Definition set_packet (k : AVPacket) (d : VideoDecoder) : VideoDecoder :=
  mkDecoder (m_format_context d) (m_codec_context d) (m_video_stream_index d) k (m_frame d).
Definition set_frame (f : AVFrame) (d : VideoDecoder) : VideoDecoder :=
  mkDecoder (m_format_context d) (m_codec_context d) (m_video_stream_index d) (m_packet d) f.

Definition set_draining (b : bool) (c : AVCodecContext) : AVCodecContext :=
  mkCodec (width c) (height c) b (send_script c) (recv_script c).
Definition set_send_script (s : list Z) (c : AVCodecContext) : AVCodecContext :=
  mkCodec (width c) (height c) (draining c) s (recv_script c).
Definition set_recv_script (s : list (Z * AVFrame)) (c : AVCodecContext) : AVCodecContext :=
  mkCodec (width c) (height c) (draining c) (send_script c) s.
Definition set_size (wd ht : Z) (c : AVCodecContext) : AVCodecContext :=
  mkCodec wd ht (draining c) (send_script c) (recv_script c).

(** The stream read at an index outside [streams] (the constructor
    allows none), and a picture buffer holding no picture. *)
Definition no_stream : AVStream := mkStream (-1) 0 0 0 0 (mkRational 0 1) 0.
Definition no_frame : AVFrame := mkFrame 0 0 (-1) 0.

(** *** The FFmpeg calls of the decoder *)

(** Modelled from the spec: the container capability of section 6
    ([readNextUnit]) is not part of src/.
    [av_read_frame(m_format_context, m_packet)]: the next scripted result,
    and end of input once the script is used up. *)
Definition av_read_frame (d : VideoDecoder) : Z * VideoDecoder :=
  let f := m_format_context d in
  match read_script f with
  | [] => (AVERROR_EOF, d)
  | (ret, idx) :: rest =>
      let d := set_format (mkFormat (streams f) rest (seek_script f) (seeks_issued f)) d in
      (ret, if ret <? 0 then d else set_packet (mkPacket idx) d)
  end.

(** Modelled from the spec: [submitUnitForDecode] with the sentinel.
    [avcodec_send_packet(m_codec_context, nullptr)] starts the flush (its
    return code is not looked at). *)
Definition avcodec_send_packet_null (d : VideoDecoder) : VideoDecoder :=
  set_codec (set_draining true (m_codec_context d)) d.

(** Modelled from the spec: [submitUnitForDecode].
    [avcodec_send_packet(m_codec_context, m_packet)]: the next scripted
    code, and acceptance once the script is used up. *)
Definition avcodec_send_packet (d : VideoDecoder) : Z * VideoDecoder :=
  let c := m_codec_context d in
  (hd 0 (send_script c), set_codec (set_send_script (tl (send_script c)) c) d).

(** Modelled from the spec: the decode capability of section 6
    ([drainDecodedPicture]) is not part of src/.
    [avcodec_receive_frame(m_codec_context, m_frame)]: the next scripted
    result; once the script is used up, "not ready", or "end of stream"
    after the end-of-input sentinel.  The picture buffer is cleared first,
    and filled when the code is not negative. *)
Definition avcodec_receive_frame (d : VideoDecoder) : Z * VideoDecoder :=
  let c := m_codec_context d in
  match recv_script c with
  | [] => (if draining c then AVERROR_EOF else AVERROR EAGAIN,
           set_frame no_frame d)
  | (ret, pic) :: rest =>
      let d := set_codec (set_recv_script rest c) d in
      (ret, set_frame (if ret <? 0 then no_frame else pic) d)
  end.

(** Modelled from the spec: [flushDecodeState].
    [avcodec_flush_buffers(m_codec_context)] ends a flush in progress. *)
Definition avcodec_flush_buffers (d : VideoDecoder) : VideoDecoder :=
  set_codec (set_draining false (m_codec_context d)) d.

(** Modelled from the spec: [seekBackwardToKeyframe].
    [av_seek_frame(m_format_context, m_video_stream_index, ts,
    AVSEEK_FLAG_BACKWARD)]: the next scripted code, and success once the
    script is used up. *)
Definition av_seek_frame (ts : Z) (d : VideoDecoder) : Z * VideoDecoder :=
  let f := m_format_context d in
  (hd 0 (seek_script f),
   set_format (mkFormat (streams f) (read_script f) (tl (seek_script f))
                        (seeks_issued f ++ [ts])) d).

(** *** Constructor and destructor *)

(** The results of the library calls the constructor makes. *)
Record CtorEnv := mkCtorEnv {
  open_input : option AVFormatContext;   (* None: avformat_open_input != 0 *)
  find_stream_info_ret : Z;
  find_decoder : Z -> bool;              (* avcodec_find_decoder(id) != nullptr *)
  alloc_context : option AVCodecContext; (* avcodec_alloc_context3 *)
  parameters_to_context_ret : Z;
  open2_ret : Z;
  packet_alloc_ok : bool;
  frame_alloc_ok : bool
}.

(** The [for] loop of the constructor over [streams[i]], from index [i]
    on, [found] being [m_video_stream_index] so far. *)
Fixpoint find_video_stream (ss : list AVStream) (i found : Z) : Z :=
  match ss with
  | [] => found
  | s :: rest =>
      find_video_stream rest (i + 1)
        (if codec_type s =? AVMEDIA_TYPE_VIDEO then i else found)
  end.

Definition stream_at (f : AVFormatContext) (i : Z) : AVStream :=
  nth (Z.to_nat i) (streams f) no_stream.

(** [VideoDecoder::VideoDecoder(path)] *)
Definition VideoDecoder_new (env : CtorEnv) (p : Process)
  : Outcome VideoDecoder * Process :=
  match open_input env with
  | None => (Throw "couldn't open file", p)
  | Some fmt =>
    let p := acquire_in RFormatContext p in
    if find_stream_info_ret env <? 0
    then (Throw "couldn't retrieve stream information", release_in RFormatContext p)
    else
    let index := find_video_stream (streams fmt) 0 (-1) in
    if index =? -1
    then (Throw "couldn't find a video stream", release_in RFormatContext p)
    else
    let codec_parameters := stream_at fmt index in
    if negb (find_decoder env (codec_id codec_parameters))
    then (Throw "unsupported video codec", release_in RFormatContext p)
    else
    match alloc_context env with
    | None =>
        (Throw "couldn't allocate video codec context", release_in RFormatContext p)
    | Some ctx =>
      let p := acquire_in RCodecContext p in
      if parameters_to_context_ret env <? 0
      then (Throw "couldn't copy video codec context",
            release_in RFormatContext (release_in RCodecContext p))
      else
      let ctx := set_size (par_width codec_parameters) (par_height codec_parameters) ctx in
      if open2_ret env <? 0
      then (Throw "couldn't open video codec",
            release_in RFormatContext (release_in RCodecContext p))
      else
      if negb (packet_alloc_ok env)
      then (Throw "couldn't allocate m_packet",
            release_in RFormatContext (release_in RCodecContext p))
      else
      let p := acquire_in RPacket p in
      if negb (frame_alloc_ok env)
      then (Throw "couldn't allocate m_frame",
            release_in RPacket
              (release_in RFormatContext (release_in RCodecContext p)))
      else
      let p := acquire_in RFrame p in
      (Ok (mkDecoder fmt ctx index (mkPacket 0) no_frame), p)
    end
  end.

(** [VideoDecoder::~VideoDecoder()] *)
Definition VideoDecoder_delete (p : Process) : Process :=
  release_in RFrame
    (release_in RPacket (release_in RFormatContext (release_in RCodecContext p))).

(** *** Accessors and timestamps *)

(** [getStream()] *)
Definition getStream (d : VideoDecoder) : AVStream :=
  stream_at (m_format_context d) (m_video_stream_index d).

(** [getTotalDuration()] *)
Definition getTotalDuration (d : VideoDecoder) : Z :=
  av_rescale_q (duration (getStream d)) (time_base (getStream d))
               (mkRational 1 AV_TIME_BASE).

(** [getBestEffortTimestampInMicroseconds(frame, stream)] *)
Definition getBestEffortTimestampInMicroseconds (frame : AVFrame) (stream : AVStream) : Z :=
  av_rescale_q (best_effort_timestamp frame) (time_base stream)
               (mkRational 1 AV_TIME_BASE).

(** *** The decode loop *)

(** The body of [if (!hasPendingFrames) { ... }]: [false] when the body
    executes [return false]. *)
Definition read_packet (d : VideoDecoder) : bool * VideoDecoder :=
  let (ret, d) := av_read_frame d in
  if ret =? AVERROR_EOF then (true, avcodec_send_packet_null d)
  else if ret <? 0 then (false, d)
  else if stream_index (m_packet d) =? m_video_stream_index d then
    let (ret, d) := avcodec_send_packet d in
    if ret <? 0 then (false, d) else (true, d)
  else (true, d).

Inductive Step : Type :=
| Return (got : bool) (p : Process) (d : VideoDecoder)
| Continue (p : Process) (d : VideoDecoder).

(** One turn of the outer [while (true)] of [getNextFrame(AVFrame
    **out_frame)].  The inner [while (true)] leaves on its first turn,
    whatever [avcodec_receive_frame] returns. *)
Definition iteration (p : Process) (d : VideoDecoder) : Step :=
  let (ok, d) := if negb (hasPendingFrames p) then read_packet d else (true, d) in
  if negb ok then Return false p d
  else
    let (ret, d) := avcodec_receive_frame d in
    if ret =? AVERROR EAGAIN then Continue (set_hasPendingFrames false p) d
    else if ret =? AVERROR_EOF then Return false (set_hasPendingFrames false p) d
    else if ret <? 0 then Return false p d
    else Return true (set_hasPendingFrames true p) d.

(** A bound on the turns of the loop: a turn that goes round again has
    used a scripted result, or has put the decoder into draining, or has
    cleared the flag ([iteration_continue]). *)
Definition turns (p : Process) (d : VideoDecoder) : nat :=
  (2 * (List.length (read_script (m_format_context d))
        + List.length (recv_script (m_codec_context d)))
   + (if draining (m_codec_context d) then 0 else 2)
   + (if hasPendingFrames p then 1 else 0) + 1)%nat.

Fixpoint getNextFrame_loop (fuel : nat) (p : Process) (d : VideoDecoder)
  : bool * Process * VideoDecoder :=
  match fuel with
  | O => (false, p, d)
  | S k =>
    match iteration p d with
    | Return got p' d' => (got, p', d')
    | Continue p' d' => getNextFrame_loop k p' d'
    end
  end.

(** [bool VideoDecoder::getNextFrame(AVFrame **out_frame)]; on [true],
    [*out_frame] is [m_frame] of the decoder returned. *)
Definition getNextFrame_AVFrame (p : Process) (d : VideoDecoder)
  : bool * Process * VideoDecoder :=
  getNextFrame_loop (turns p d) p d.

(** [convertAVFrameToRGBBuffer(frame, rgb_buffer)] *)
Definition convertAVFrameToRGBBuffer (frame : AVFrame) (p : Process)
  : Outcome unit * Process :=
  let ok := hd true (sws_script p) in
  let p := mkProcess (hasPendingFrames p) (tl (sws_script p)) (rgb_written p) (live p) in
  if ok then
    let p := acquire_in RSwsContext p in
    let p := mkProcess (hasPendingFrames p) (sws_script p)
                       (rgb_written p ++ [frame]) (live p) in
    (Ok tt, release_in RSwsContext p)
  else (Throw "failed to create scaling context", p).

(** [bool VideoDecoder::getNextFrame(uint8_t *rgb_buffer, int64_t *pts)];
    [want_pts] is [pts != nullptr], and the second component of the result
    is what was stored through [pts]. *)
Definition getNextFrame (want_pts : bool) (p : Process) (d : VideoDecoder)
  : Outcome (bool * option Z) * Process * VideoDecoder :=
  let '(frame_received, p, d) := getNextFrame_AVFrame p d in
  if frame_received then
    match convertAVFrameToRGBBuffer (m_frame d) p with
    | (Throw msg, p) => (Throw msg, p, d)       (* catch (...) { throw e; } *)
    | (Ok _, p) =>
        (Ok (true,
             if want_pts
             then Some (getBestEffortTimestampInMicroseconds (m_frame d) (getStream d))
             else None), p, d)
    end
  else (Ok (false, None), p, d).

(** The [while (getNextFrame(&frame))] loop of [seekToTimestamp]; every
    turn that goes round again has taken a picture from the script. *)
Fixpoint seek_loop (fuel : nat) (target : Z) (p : Process) (d : VideoDecoder)
  : bool * Process * VideoDecoder :=
  match fuel with
  | O => (false, p, d)
  | S k =>
    let '(got, p, d) := getNextFrame_AVFrame p d in
    if got then
      let currentTimestamp :=
        getBestEffortTimestampInMicroseconds (m_frame d) (getStream d) in
      if target <=? currentTimestamp then (true, p, d)
      else seek_loop k target p d
    else (false, p, d)
  end.

(** [bool VideoDecoder::seekToTimestamp(int64_t timestamp_in_microseconds)] *)
Definition seekToTimestamp (timestamp_in_microseconds : Z) (p : Process)
    (d : VideoDecoder) : bool * Process * VideoDecoder :=
  let timestamp_in_time_base :=
    av_rescale_q timestamp_in_microseconds AV_TIME_BASE_Q
                 (time_base (getStream d)) in
  let d := avcodec_flush_buffers d in
  let (ret, d) := av_seek_frame timestamp_in_time_base d in
  if ret <? 0 then (false, p, d)
  else seek_loop (S (List.length (recv_script (m_codec_context d))))
                 timestamp_in_microseconds p d.

(** What one turn of the loop keeps and what it takes from the scripts. *)
Record turn_keeps (d d' : VideoDecoder) : Prop := mkKeeps {
  keeps_streams : streams (m_format_context d') = streams (m_format_context d);
  keeps_index : m_video_stream_index d' = m_video_stream_index d;
  keeps_suffix : exists pre,
      recv_script (m_codec_context d)
      = pre ++ recv_script (m_codec_context d')
}.

(** The picture a turn delivers is the next scripted one. *)
Definition delivers (d d' : VideoDecoder) : Prop :=
  exists pre ret,
    recv_script (m_codec_context d)
    = pre ++ (ret, m_frame d') :: recv_script (m_codec_context d')
    /\ 0 <= ret.

(** *** The construction contract in the spec's words *)

Inductive ErrorKind : Type :=
| OpenError | NoVideoStreamError | UnsupportedCodecError | InitError.

(** The error kind the spec names for each message the constructor
    throws (the code throws [std::runtime_error] throughout). *)
Definition error_kind (msg : string) : option ErrorKind :=
  if (msg =? "couldn't open file")%string then Some OpenError
  else if (msg =? "couldn't retrieve stream information")%string then Some OpenError
  else if (msg =? "couldn't find a video stream")%string then Some NoVideoStreamError
  else if (msg =? "unsupported video codec")%string then Some UnsupportedCodecError
  else if (msg =? "couldn't allocate video codec context")%string then Some InitError
  else if (msg =? "couldn't copy video codec context")%string then Some InitError
  else if (msg =? "couldn't open video codec")%string then Some InitError
  else if (msg =? "couldn't allocate m_packet")%string then Some InitError
  else if (msg =? "couldn't allocate m_frame")%string then Some InitError
  else None.

Definition is_video (s : AVStream) : bool := codec_type s =? AVMEDIA_TYPE_VIDEO.

(** The failure the spec prescribes for a construction, following its
    sentence case by case; [None] when it prescribes none. *)
Definition spec_failure (env : CtorEnv) : option ErrorKind :=
  match open_input env with
  | None => Some OpenError
  | Some fmt =>
    if find_stream_info_ret env <? 0 then Some OpenError
    else
    match rev (filter is_video (streams fmt)) with
    | [] => Some NoVideoStreamError
    | s :: _ =>
      if negb (find_decoder env (codec_id s)) then Some UnsupportedCodecError
      else
      match alloc_context env with
      | None => Some InitError
      | Some _ =>
        if (parameters_to_context_ret env <? 0) || (open2_ret env <? 0)
           || negb (packet_alloc_ok env) || negb (frame_alloc_ok env)
        then Some InitError else None
      end
    end
  end.

(** [getBitrate()] *)
Definition getBitrate (d : VideoDecoder) : Z :=
  bit_rate (stream_at (m_format_context d) (m_video_stream_index d)).

(** [getWidth()] and [getHeight()] *)
Definition getWidth (d : VideoDecoder) : Z := width (m_codec_context d).
Definition getHeight (d : VideoDecoder) : Z := height (m_codec_context d).

(** A caller's use of one decoder: a sequence of public calls, each applied
    to the state the previous one left, whether it threw or not. *)
Inductive Call : Type :=
| CallGetNextFrame (want_pts : bool)
| CallSeekToTimestamp (timestamp_in_microseconds : Z).

Definition call (c : Call) (p : Process) (d : VideoDecoder) : Process * VideoDecoder :=
  match c with
  | CallGetNextFrame want_pts =>
      let '(_, p', d') := getNextFrame want_pts p d in (p', d')
  | CallSeekToTimestamp t =>
      let '(_, p', d') := seekToTimestamp t p d in (p', d')
  end.

Fixpoint calls (cs : list Call) (p : Process) (d : VideoDecoder)
  : Process * VideoDecoder :=
  match cs with
  | [] => (p, d)
  | c :: rest => let (p', d') := call c p d in calls rest p' d'
  end.

(** The normalized timestamp of a picture at [ticks] of the stream. *)
Definition microseconds_of_ticks (ticks : Z) (stream : AVStream) : Z :=
  getBestEffortTimestampInMicroseconds (mkFrame 0 0 0 ticks) stream.

(** Nothing buffered in the decoder, and every packet still in the
    container is read without error and belongs to another stream. *)
Definition only_foreign_packets (d : VideoDecoder) : Prop :=
  recv_script (m_codec_context d) = []
  /\ forall ret idx,
       In (ret, idx) (read_script (m_format_context d)) ->
       0 <= ret /\ idx <> m_video_stream_index d.

(** A drain result passed over on the way to a target: "not ready", or a
    picture before the target. *)
Definition passed_over (target : Z) (stream : AVStream) (x : Z * AVFrame) : Prop :=
  fst x = AVERROR EAGAIN
  \/ (0 <= fst x /\ getBestEffortTimestampInMicroseconds (snd x) stream < target).


(** A drain result that ends a call with "no frame": end of stream or a
    hard error. *)
Definition stops_decoding (x : Z * AVFrame) : Prop :=
  fst x < 0 /\ fst x <> AVERROR EAGAIN.

(** The states at the start of a turn, told apart by what the libraries
    are about to answer. *)

(** The container has nothing more to read. *)
Definition end_of_file (d : VideoDecoder) : Prop :=
  match read_script (m_format_context d) with
  | [] => True
  | (ret, _) :: _ => ret = AVERROR_EOF
  end.




(** The turn gets as far as the drain: no packet is to be read, or the
    read and the submission go through. *)
Definition packet_phase_passes (p : Process) (d : VideoDecoder) : Prop :=
  hasPendingFrames p = true
  \/ match read_script (m_format_context d) with
     | [] => True
     | (ret, idx) :: _ =>
         ret = AVERROR_EOF
         \/ (0 <= ret
             /\ (idx = m_video_stream_index d ->
                 0 <= hd 0 (send_script (m_codec_context d))))
     end.

(** The turn gets as far as the drain, and the decoder has a picture. *)
Definition picture_ready (p : Process) (d : VideoDecoder) : Prop :=
  packet_phase_passes p d
  /\ exists ret pic more,
       recv_script (m_codec_context d) = (ret, pic) :: more /\ 0 <= ret.


End Decoder.

(** ** Concrete scenarios *)

Module Scenario.

(** An empty world: nothing held, nothing written, no scripted result. *)
Definition fresh_world : Encoder.World :=
  Encoder.mkWorld [] [] [] [] false [] [] [].

(** Every library call of the encoder's constructor succeeds; the
    container keeps a backing file, and the muxer keeps the time base it
    is offered. *)
Definition all_ok : Encoder.CtorEnv :=
  Encoder.mkCtorEnv (Some (Encoder.mkFormat false false)) 0 true true true
                    0 0 0 (fun tb => tb) true 0 true.

(** The output file is opened, then [avcodec_find_encoder] finds nothing. *)
Definition no_encoder : Encoder.CtorEnv :=
  Encoder.mkCtorEnv (Some (Encoder.mkFormat false false)) 0 false true true
                    0 0 0 (fun tb => tb) true 0 true.

(** The header is written, then [av_frame_alloc] fails. *)
Definition no_frame_memory : Encoder.CtorEnv :=
  Encoder.mkCtorEnv (Some (Encoder.mkFormat false false)) 0 true true true
                    0 0 0 (fun tb => tb) false 0 true.

(** A muxer that stores timestamps in milliseconds whatever it is offered. *)
Definition millisecond_muxer : Encoder.CtorEnv :=
  Encoder.mkCtorEnv (Some (Encoder.mkFormat false false)) 0 true true true
                    0 0 0 (fun _ => mkRational 1 1000) true 0 true.

(** The encoder [VideoEncoder(path, 64, 48, 25.0, 400000)] once
    constructed. *)
Definition encoder_64x48 : Encoder.VideoEncoder :=
  Encoder.mkEncoder (Encoder.mkFormat false false)
    (Encoder.mkCodec 64 48 (mkRational 1000 25000) 12 AV_PIX_FMT_YUV420P 400000 false)
    (Encoder.mkStream (mkRational 1000 25000))
    (Encoder.mkFrame AV_PIX_FMT_YUV420P 64 48 0) None false 0.

Definition world_64x48 : Encoder.World :=
  Encoder.mkWorld [RPacket; RFrame; RCodecContext; ROutputFile; RFormatContext]
                  [Encoder.WriteHeader] [] [] false [] [] [].

(** A stream of three pictures at 0, 40 and 80 ms in a container whose
    time base is the microsecond; each packet decodes to one picture. *)
Definition microsecond_stream : Decoder.AVStream :=
  Decoder.mkStream AVMEDIA_TYPE_VIDEO 27 64 48 400000 (mkRational 1 1000000) 120000.

Definition picture (ts : Z) : Decoder.AVFrame := Decoder.mkFrame 64 48 0 ts.

Definition three_pictures : Decoder.VideoDecoder :=
  Decoder.mkDecoder
    (Decoder.mkFormat [microsecond_stream] [(0, 0); (0, 0); (0, 0)] [] [])
    (Decoder.mkCodec 64 48 false []
       [(0, picture 0); (AVERROR EAGAIN, Decoder.no_frame);
        (0, picture 40000); (AVERROR EAGAIN, Decoder.no_frame);
        (0, picture 80000)])
    0 (Decoder.mkPacket 0) Decoder.no_frame.

(** A second open file: one packet, for which the decoder first answers
    "not ready" and then hands out a picture. *)
Definition second_file : Decoder.VideoDecoder :=
  Decoder.mkDecoder
    (Decoder.mkFormat [microsecond_stream] [(0, 0)] [] [])
    (Decoder.mkCodec 64 48 false []
       [(AVERROR EAGAIN, Decoder.no_frame); (0, picture 0)])
    0 (Decoder.mkPacket 0) Decoder.no_frame.

(** A file whose video stream counts in 1/90000 s and lasts 2700100
    ticks, that is 30001111.1 microseconds. *)
Definition broadcast_clip : Decoder.VideoDecoder :=
  Decoder.mkDecoder
    (Decoder.mkFormat
       [Decoder.mkStream AVMEDIA_TYPE_VIDEO 2 720 576 4000000
                         (mkRational 1 90000) 2700100]
       [(0, 0)] [] [])
    (Decoder.mkCodec 720 576 false [] [(0, Decoder.mkFrame 720 576 0 3600)])
    0 (Decoder.mkPacket 0) Decoder.no_frame.

(** A process in which the next [sws_getContext] fails. *)
Definition no_sws_memory : Decoder.Process :=
  Decoder.mkProcess false [false] [] [].

(** The library side of opening a file whose one stream is video. *)
Definition opens_video : Decoder.CtorEnv :=
  Decoder.mkCtorEnv
    (Some (Decoder.mkFormat [microsecond_stream] [(0, 0); (0, 0); (0, 0)] [] []))
    0 (fun _ => true)
    (Some (Decoder.mkCodec 0 0 false [] [(0, picture 0)]))
    0 0 true true.

(** A file with an audio stream between two video streams; its packets
    all belong to the audio stream. *)
Definition audio_stream : Decoder.AVStream :=
  Decoder.mkStream 1 86018 0 0 128000 (mkRational 1 44100) 0.

Definition two_video_streams : Decoder.CtorEnv :=
  Decoder.mkCtorEnv
    (Some (Decoder.mkFormat
             [microsecond_stream; audio_stream;
              Decoder.mkStream AVMEDIA_TYPE_VIDEO 2 720 576 4000000
                               (mkRational 1 90000) 2700100]
             [(0, 1); (0, 1)] [] []))
    0 (fun _ => true)
    (Some (Decoder.mkCodec 0 0 false [] []))
    0 0 true true.

Definition audio_packets_only : Decoder.VideoDecoder :=
  Decoder.mkDecoder
    (Decoder.mkFormat [microsecond_stream; audio_stream] [(0, 1); (0, 1)] [] [])
    (Decoder.mkCodec 64 48 false [0; 0] [])
    0 (Decoder.mkPacket 0) Decoder.no_frame.

(** One packet that decodes to two pictures. *)
Definition two_pictures_per_packet : Decoder.VideoDecoder :=
  Decoder.mkDecoder
    (Decoder.mkFormat [microsecond_stream] [(0, 0); (0, 0)] [] [])
    (Decoder.mkCodec 64 48 false [] [(0, picture 0); (0, picture 40000)])
    0 (Decoder.mkPacket 0) Decoder.no_frame.

(** Three pictures at 0, 40 and 80 ms in a stream whose declared duration
    is 50 ms. *)
Definition late_pictures : Decoder.VideoDecoder :=
  Decoder.mkDecoder
    (Decoder.mkFormat
       [Decoder.mkStream AVMEDIA_TYPE_VIDEO 27 64 48 400000
                         (mkRational 1 1000000) 50000]
       [(0, 0); (0, 0); (0, 0)] [] [])
    (Decoder.mkCodec 64 48 false []
       [(0, picture 0); (AVERROR EAGAIN, Decoder.no_frame);
        (0, picture 40000); (AVERROR EAGAIN, Decoder.no_frame);
        (0, picture 80000)])
    0 (Decoder.mkPacket 0) Decoder.no_frame.

(** Pictures handed out at 0, 40 and then 10 ms. *)
Definition pictures_out_of_order : Decoder.VideoDecoder :=
  Decoder.mkDecoder
    (Decoder.mkFormat [microsecond_stream] [(0, 0); (0, 0); (0, 0)] [] [])
    (Decoder.mkCodec 64 48 false []
       [(0, picture 0); (AVERROR EAGAIN, Decoder.no_frame);
        (0, picture 40000); (AVERROR EAGAIN, Decoder.no_frame);
        (0, picture 10000)])
    0 (Decoder.mkPacket 0) Decoder.no_frame.



End Scenario.

(** ** Facts about rescaling *)

Section Rescale.

Lemma rescale_nonneg_exact a b c :
  0 <= a -> 0 <= b -> 0 < c -> round_div a b c <= INT64_MAX ->
  rescale_nonneg a b c = round_div a b c.
Proof.
  intros Ha Hb Hc Hfit. unfold rescale_nonneg, round_div in *.
  destruct ((b <=? INT_MAX) && (c <=? INT_MAX)) eqn:Hsmall.
  - destruct (a <=? INT_MAX) eqn:Hia; [reflexivity|].
    assert (Hsplit : (a * b + c / 2) / c = a / c * b + (a mod c * b + c / 2) / c).
    { rewrite (Z.div_mod a c) at 1 by lia.
      replace ((c * (a / c) + a mod c) * b + c / 2)
        with ((a / c * b) * c + (a mod c * b + c / 2)) by ring.
      rewrite Z.div_add_l by lia. reflexivity. }
    destruct ((INT32_MAX <=? a / c) && negb (b =? 0)
              && ((INT64_MAX - (a mod c * b + c / 2) / c) / b <? a / c)) eqn:Hov.
    + exfalso.
      apply andb_true_iff in Hov as [Hov1 Hov3].
      apply andb_true_iff in Hov1 as [_ Hb0].
      apply negb_true_iff, Z.eqb_neq in Hb0.
      apply Z.ltb_lt in Hov3.
      assert (a / c <= (INT64_MAX - (a mod c * b + c / 2) / c) / b).
      { apply Z.div_le_lower_bound; lia. }
      lia.
    + symmetry. exact Hsplit.
  - destruct (INT64_MAX <? (a * b + c / 2) / c) eqn:Hov; [|reflexivity].
    apply Z.ltb_lt in Hov. lia.
Qed.

Lemma av_rescale_rnd_nonneg a b c :
  0 <= a -> 0 <= b -> 0 < c -> round_div a b c <= INT64_MAX ->
  av_rescale_rnd a b c = round_div a b c.
Proof.
  intros Ha Hb Hc Hfit. unfold av_rescale_rnd.
  replace (c <=? 0) with false by (symmetry; apply Z.leb_gt; lia).
  replace (b <? 0) with false by (symmetry; apply Z.ltb_ge; lia).
  replace (a <? 0) with false by (symmetry; apply Z.ltb_ge; lia).
  simpl. now apply rescale_nonneg_exact.
Qed.

Lemma round_div_nonneg a b c : 0 <= a -> 0 <= b -> 0 < c -> 0 <= round_div a b c.
Proof.
  intros. unfold round_div. apply Z.div_pos; [|lia].
  assert (0 <= c / 2) by (apply Z.div_pos; lia). nia.
Qed.

Lemma round_div_mono a a' b c :
  0 <= b -> 0 < c -> a <= a' -> round_div a b c <= round_div a' b c.
Proof.
  intros. unfold round_div. apply Z.div_le_mono; nia.
Qed.

Lemma round_div_strict a a' b c :
  0 < c -> c <= b -> a < a' -> round_div a b c < round_div a' b c.
Proof.
  intros Hc Hb Ha. unfold round_div.
  assert (Hstep : (a * b + c / 2) / c + 1 <= (a' * b + c / 2) / c).
  { replace ((a * b + c / 2) / c + 1) with ((a * b + c / 2 + 1 * c) / c)
      by (rewrite Z.div_add by lia; reflexivity).
    apply Z.div_le_mono; nia. }
  lia.
Qed.

(** [round_div a b c] is within one half of the rational [a * b / c]. *)
Lemma round_div_nearest a b c :
  0 < c ->
  2 * (a * b) - c <= 2 * c * round_div a b c <= 2 * (a * b) + c.
Proof.
  intros Hc. unfold round_div.
  pose proof (Z.mul_div_le (a * b + c / 2) c Hc) as Hlo.
  pose proof (Z.mul_succ_div_gt (a * b + c / 2) c Hc) as Hhi.
  pose proof (Z.mul_div_le c 2 ltac:(lia)) as H2lo.
  pose proof (Z.mul_succ_div_gt c 2 ltac:(lia)) as H2hi.
  lia.
Qed.

End Rescale.

Lemma wrap64_small x : INT64_MIN <= x <= INT64_MAX -> wrap64 x = x.
Proof.
  unfold wrap64, INT64_MIN, INT64_MAX. intros H.
  rewrite Z.mod_small; lia.
Qed.

Lemma round_div_le a b c : 0 <= a -> 0 <= b -> 0 < c -> round_div a b c <= a * b + c.
Proof.
  intros Ha Hb Hc. unfold round_div.
  assert (0 <= c / 2 <= c) by (split; [apply Z.div_pos; lia | apply Z.div_le_upper_bound; lia]).
  assert (0 <= a * b) by nia.
  apply Z.le_trans with (a * b + c / 2); [|lia].
  apply Z.div_le_upper_bound; nia.
Qed.

(** On input of either sign [av_rescale_rnd] is the nearest integer to
    [a * b / c], as long as the result fits. *)
Lemma av_rescale_rnd_nearest a b c :
  - INT64_MAX <= a -> 0 <= b -> 0 < c -> round_div (Z.abs a) b c <= INT64_MAX ->
  2 * (a * b) - c <= 2 * c * av_rescale_rnd a b c <= 2 * (a * b) + c.
Proof.
  intros Ha Hb Hc Hfit.
  destruct (Z.ltb_spec a 0) as [Hneg|Hpos].
  - unfold av_rescale_rnd.
    replace (c <=? 0) with false by (symmetry; apply Z.leb_gt; lia).
    replace (b <? 0) with false by (symmetry; apply Z.ltb_ge; lia).
    replace (a <? 0) with true by (symmetry; apply Z.ltb_lt; lia).
    cbn [orb]. rewrite Z.max_l by lia.
    rewrite Z.abs_neq in Hfit by lia.
    rewrite rescale_nonneg_exact by (trivial; lia).
    pose proof (round_div_nonneg (- a) b c ltac:(lia) Hb Hc).
    rewrite wrap64_small by (unfold INT64_MIN, INT64_MAX in *; lia).
    pose proof (round_div_nearest (- a) b c Hc). lia.
  - rewrite Z.abs_eq in Hfit by lia.
    rewrite av_rescale_rnd_nonneg by (trivial; lia).
    apply round_div_nearest; lia.
Qed.

(** ** VideoEncoder: what the loops leave untouched *)

Ltac case_if :=
  match goal with
  | |- context [if ?c then _ else _] => destruct c eqn:?
  end.

Section EncoderFrames.
Import Encoder.

Lemma trailers_mux_frame w : trailers (av_interleaved_write_frame w) = trailers w.
Proof.
  unfold trailers, av_interleaved_write_frame, mux. simpl.
  rewrite filter_app, length_app. simpl. lia.
Qed.

Lemma trailers_mux_trailer w : trailers (av_write_trailer w) = S (trailers w).
Proof.
  unfold trailers, av_write_trailer, mux. simpl.
  rewrite filter_app, length_app. simpl. lia.
Qed.

Lemma receive_packet_frame w :
  let w' := snd (avcodec_receive_packet w) in
  mux_calls w' = mux_calls w /\ draining w' = draining w /\
  send_script w' = send_script w /\
  (List.length (recv_script w') <= List.length (recv_script w))%nat.
Proof.
  unfold avcodec_receive_packet. destruct (recv_script w) eqn:E; simpl; rewrite ?E; simpl; auto.
Qed.

Lemma send_frame_frame s w :
  let w' := snd (avcodec_send_frame s w) in
  mux_calls w' = mux_calls w /\ recv_script w' = recv_script w.
Proof.
  unfold avcodec_send_frame. destruct (draining w); simpl; auto.
  destruct (s && _); simpl; auto.
Qed.

Lemma receive_loop_trailers n w : trailers (snd (receive_loop n w)) = trailers w.
Proof.
  revert w. induction n as [|n IH]; intros w; simpl; [reflexivity|].
  pose proof (receive_packet_frame w) as Hf.
  destruct (avcodec_receive_packet w) as [ret w1]. simpl in Hf.
  assert (Ht : trailers w1 = trailers w) by (unfold trailers; destruct Hf as [-> _]; reflexivity).
  repeat case_if; simpl; try exact Ht.
  rewrite IH, trailers_mux_frame. exact Ht.
Qed.

Lemma flush_loop_trailers n w : trailers (flush_loop n w) = trailers w.
Proof.
  revert w. induction n as [|n IH]; intros w; simpl; [reflexivity|].
  pose proof (receive_packet_frame w) as Hf.
  destruct (avcodec_receive_packet w) as [ret w1]. simpl in Hf.
  assert (Ht : trailers w1 = trailers w) by (unfold trailers; destruct Hf as [-> _]; reflexivity).
  case_if; simpl; try exact Ht.
  rewrite IH, trailers_mux_frame. exact Ht.
Qed.

Lemma receive_all_trailers w : trailers (snd (receive_all w)) = trailers w.
Proof. apply receive_loop_trailers. Qed.

Lemma send_loop_trailers n w : trailers (snd (send_loop n w)) = trailers w.
Proof.
  revert w. induction n as [|n IH]; intros w; simpl; [reflexivity|].
  pose proof (send_frame_frame false w) as Hf.
  destruct (avcodec_send_frame false w) as [ret w1]. simpl in Hf.
  assert (Ht : trailers w1 = trailers w) by (unfold trailers; destruct Hf as [-> _]; reflexivity).
  case_if.
  - pose proof (receive_all_trailers w1) as Hr.
    destruct (receive_all w1) as [[] w2]; simpl in *; rewrite ?IH; congruence.
  - repeat case_if; simpl; exact Ht.
Qed.

(** A drain that goes round again has taken a code from the script. *)
Lemma receive_packet_continues w :
  let '(ret, w1) := avcodec_receive_packet w in
  (ret =? AVERROR_EOF) || (ret =? AVERROR EAGAIN) = false ->
  (S (List.length (recv_script (av_interleaved_write_frame w1)))
   = List.length (recv_script w))%nat.
Proof.
  unfold avcodec_receive_packet. destruct (recv_script w) as [|ret rest] eqn:E.
  - destruct (draining w); cbn; discriminate.
  - intros _. reflexivity.
Qed.

(** The loops never reach their fuel: more fuel changes nothing. *)
Lemma receive_loop_enough n :
  forall w, (List.length (recv_script w) < n)%nat ->
    receive_loop n w = receive_all w.
Proof.
  unfold receive_all.
  induction n as [n IH] using lt_wf_ind. intros w Hn.
  destruct n as [|n]; [lia|]. cbn [receive_loop].
  pose proof (receive_packet_continues w) as Hc.
  destruct (avcodec_receive_packet w) as [ret w1].
  destruct (ret =? AVERROR EAGAIN) eqn:Eag; [reflexivity|].
  destruct (ret =? AVERROR_EOF) eqn:Eeof; [reflexivity|].
  destruct (ret <? 0); [reflexivity|].
  specialize (Hc eq_refl).
  rewrite (IH n) by lia.
  rewrite (IH (List.length (recv_script w))) by lia. reflexivity.
Qed.

Lemma flush_loop_enough n :
  forall w, (List.length (recv_script w) < n)%nat ->
    flush_loop n w = flush_loop (S (List.length (recv_script w))) w.
Proof.
  induction n as [n IH] using lt_wf_ind. intros w Hn.
  destruct n as [|n]; [lia|]. cbn [flush_loop].
  pose proof (receive_packet_continues w) as Hc.
  destruct (avcodec_receive_packet w) as [ret w1].
  destruct ((ret =? AVERROR_EOF) || (ret =? AVERROR EAGAIN)) eqn:E; [reflexivity|].
  specialize (Hc eq_refl).
  rewrite (IH n) by lia.
  rewrite (IH (List.length (recv_script w))) by lia. reflexivity.
Qed.

Lemma receive_loop_send_script n w :
  send_script (snd (receive_loop n w)) = send_script w.
Proof.
  revert w. induction n as [|n IH]; intros w; cbn [receive_loop]; [reflexivity|].
  pose proof (receive_packet_frame w) as Hf.
  destruct (avcodec_receive_packet w) as [ret w1]. cbn [snd] in Hf.
  destruct Hf as (_ & _ & Hs & _).
  repeat case_if; cbn [snd]; try exact Hs.
  rewrite IH. exact Hs.
Qed.

Lemma send_loop_enough n :
  forall w, (List.length (send_script w) < n)%nat ->
    send_loop n w = send_all w.
Proof.
  unfold send_all.
  induction n as [n IH] using lt_wf_ind. intros w Hn.
  destruct n as [|n]; [lia|]. cbn [send_loop].
  assert (Hs : fst (avcodec_send_frame false w) = AVERROR EAGAIN ->
               (S (List.length (send_script (snd (avcodec_send_frame false w))))
                = List.length (send_script w))%nat).
  { unfold avcodec_send_frame. destruct (draining w); [discriminate|].
    cbn. destruct (send_script w); [discriminate|reflexivity]. }
  destruct (avcodec_send_frame false w) as [ret w1]. cbn [fst snd] in Hs.
  destruct (ret =? AVERROR EAGAIN) eqn:Eag; [|reflexivity].
  apply Z.eqb_eq in Eag. specialize (Hs Eag).
  pose proof (receive_loop_send_script (S (List.length (recv_script w1))) w1) as Hr.
  unfold receive_all. destruct (receive_loop _ w1) as [[] w2]; try reflexivity.
  cbn [snd] in Hr. rewrite <- Hr in Hs.
  rewrite (IH n) by lia.
  rewrite (IH (List.length (send_script w))) by lia. reflexivity.
Qed.

Lemma send_all_trailers w : trailers (snd (send_all w)) = trailers w.
Proof. apply send_loop_trailers. Qed.

Lemma flush_loop_draining n w : draining (flush_loop n w) = draining w.
Proof.
  revert w. induction n as [|n IH]; intros w; simpl; [reflexivity|].
  pose proof (receive_packet_frame w) as Hf.
  destruct (avcodec_receive_packet w) as [ret w1]. simpl in Hf.
  destruct Hf as (_ & Hd & _).
  case_if; [exact Hd|]. rewrite IH. exact Hd.
Qed.


(** What one submission does to the object, whatever the encoder answers. *)
Lemma encodeFrame_AVFrame_effect e w :
  let '(_, e', w') := encodeFrame_AVFrame e w in
  e' = set_m_frame
         (set_pts (av_rescale_q (m_pts e) (time_base (m_codec_context e))
                                (stream_time_base (m_stream e)))
                  (m_frame e))
         (set_m_pts (wrap64 (m_pts e + 1)) e)
  /\ trailers w' = trailers w.
Proof.
  unfold encodeFrame_AVFrame.
  pose proof (send_all_trailers w) as Hs.
  destruct (send_all w) as [[] w1]; cbn [snd] in Hs; auto.
  pose proof (receive_all_trailers w1) as Hr.
  destruct (receive_all w1) as [[] w2]; cbn [snd] in Hr; split;
    solve [reflexivity | congruence].
Qed.

Lemma encodeFrame_effect width height e w :
  let '(_, e', w') := encodeFrame width height e w in
  m_finalized e' = m_finalized e /\ trailers w' = trailers w.
Proof.
  unfold encodeFrame.
  set (rebuild := match m_sws_context e with None => true | Some _ => _ end).
  destruct rebuild.
  - unfold sws_getContext.
    set (w1 := sws_freeContext (m_sws_context e) w).
    assert (H1 : trailers w1 = trailers w) by (unfold w1, sws_freeContext; destruct (m_sws_context e); reflexivity).
    destruct (hd true (sws_script w1)); simpl; [|auto].
    match goal with |- context [encodeFrame_AVFrame ?a ?b] =>
      pose proof (encodeFrame_AVFrame_effect a b) as He;
      destruct (encodeFrame_AVFrame a b) as [[o e'] w'] end.
    destruct He as [-> He]. split; [reflexivity|]. rewrite He. exact H1.
  - destruct (m_sws_context e) as [c|] eqn:Ec; simpl; [|auto].
    match goal with |- context [encodeFrame_AVFrame ?a ?b] =>
      pose proof (encodeFrame_AVFrame_effect a b) as He;
      destruct (encodeFrame_AVFrame a b) as [[o e'] w'] end.
    destruct He as [-> He]. split; [reflexivity|]. exact He.
Qed.

Lemma finalize_effect e w :
  let '(e', w') := finalize e w in
  m_finalized e' = true /\
  trailers w' = (if m_finalized e then trailers w else S (trailers w)) /\
  (m_finalized e = true -> e' = e /\ w' = w) /\
  (m_finalized e = false ->
   draining w = true \/ 0 <= hd 0 (send_script w) -> draining w' = true).
Proof.
  unfold finalize. destruct (m_finalized e) eqn:Ef; cbn [negb].
  - repeat split; auto; discriminate.
  - pose proof (send_frame_frame true w) as Hs.
    assert (Hd : draining w = true \/ 0 <= hd 0 (send_script w) ->
                 draining (snd (avcodec_send_frame true w)) = true).
    { unfold avcodec_send_frame. intros [Hd|Hd].
      - rewrite Hd. exact Hd.
      - destruct (draining w) eqn:E; simpl; [exact E|].
        replace (0 <=? hd 0 (send_script w)) with true
          by (symmetry; apply Z.leb_le; exact Hd).
        reflexivity. }
    destruct (avcodec_send_frame true w) as [ret w1]. cbn [snd] in Hs, Hd.
    split; [reflexivity|]. split; [|split].
    + rewrite trailers_mux_trailer, flush_loop_trailers.
      unfold trailers. destruct Hs as [-> _]. reflexivity.
    + discriminate.
    + intros _ H. unfold av_write_trailer, mux. cbn [draining set_mux_calls].
      rewrite flush_loop_draining. auto.
Qed.

(** Releasing resources issues nothing to the muxer. *)
Lemma delete_mux_calls e w :
  mux_calls (VideoEncoder_delete e w) = mux_calls (snd (finalize e w)).
Proof.
  unfold VideoEncoder_delete. destruct (finalize e w) as [e' w']. simpl.
  destruct (m_sws_context e'), (AVFMT_NOFILE (m_format_context e')); reflexivity.
Qed.

(** A constructed encoder is not finalized, has numbered no frame, and
    its construction wrote no trailer. *)
Lemma VideoEncoder_new_ok env width height fps_milli bitrate w e w' :
  VideoEncoder_new env width height fps_milli bitrate w = (Ok e, w') ->
  m_finalized e = false /\ m_pts e = 0 /\ trailers w' = trailers w.
Proof.
  unfold VideoEncoder_new. destruct (alloc_output_context env); [|discriminate].
  repeat case_if; try discriminate; intros H; inversion H; subst; clear H;
    repeat split; unfold trailers; simpl; rewrite filter_app, length_app; simpl; lia.
Qed.

(** No failure branch of the constructor gives anything back: what was
    held before the call is still held after the throw, below whatever the
    constructor had acquired by then. *)
Lemma VideoEncoder_new_releases_nothing env width height fps_milli bitrate w msg w' :
  VideoEncoder_new env width height fps_milli bitrate w = (Throw msg, w') ->
  exists acquired, live w' = acquired ++ live w.
Proof.
  unfold VideoEncoder_new. destruct (alloc_output_context env).
  - repeat case_if; try discriminate; intros H; inversion H; subst; clear H; cbn;
      match goal with
      | |- exists a, ?l ++ ?r = _ => idtac
      | |- exists a, ?l = a ++ ?r =>
          first [ exists [RFormatContext]; reflexivity
                | exists [ROutputFile; RFormatContext]; reflexivity
                | exists [RCodecContext; RFormatContext]; reflexivity
                | exists [RCodecContext; ROutputFile; RFormatContext]; reflexivity
                | exists [RFrame; RCodecContext; RFormatContext]; reflexivity
                | exists [RFrame; RCodecContext; ROutputFile; RFormatContext]; reflexivity ]
      end.
  - intros H; inversion H; subst. exists []. reflexivity.
Qed.

Lemma call_trailer_flag c e w :
  trailer_flag e w -> trailer_flag (fst (call c e w)) (snd (call c e w)).
Proof.
  unfold trailer_flag. intros H. destruct c as [wd ht|]; simpl.
  - pose proof (encodeFrame_effect wd ht e w) as He.
    destruct (encodeFrame wd ht e w) as [[o e'] w']. simpl.
    destruct He as [-> ->]. exact H.
  - pose proof (finalize_effect e w) as Hf.
    destruct (finalize e w) as [e' w']. simpl.
    destruct Hf as (-> & -> & _). destruct (m_finalized e); lia.
Qed.

Lemma calls_trailer_flag cs e w :
  trailer_flag e w -> trailer_flag (fst (calls cs e w)) (snd (calls cs e w)).
Proof.
  revert e w. induction cs as [|c cs IH]; intros e w H; simpl; [exact H|].
  pose proof (call_trailer_flag c e w H) as Hc.
  destruct (call c e w) as [e' w']. apply IH. exact Hc.
Qed.

Lemma finalize_again e w :
  m_finalized e = true -> forall k, calls (repeat CallFinalize k) e w = (e, w).
Proof.
  intros He k. induction k as [|k IH]; simpl; [reflexivity|].
  unfold finalize. rewrite He. simpl. exact IH.
Qed.

End EncoderFrames.

(** ** VideoEncoder: the claims *)

Section EncoderClaims.
Import Encoder Scenario.

(** C1 (the code departs from the claim).  The constructor releases
    nothing on a failure branch.  When the encoder lookup fails after the
    output file was opened, the exception leaves the format context and the
    open file behind; when the frame allocation fails, the file is open,
    holds a header and no trailer, and the codec context stays allocated. *)
Theorem C1_constructor_failure_leaves_file_open :
  VideoEncoder_new no_encoder 64 48 25000 400000 fresh_world
  = (Throw "Could not find encoder",
     set_live [ROutputFile; RFormatContext] fresh_world)
  /\ VideoEncoder_new no_frame_memory 64 48 25000 400000 fresh_world
     = (Throw "Could not allocate video frame",
        set_mux_calls [WriteHeader]
          (set_live [RCodecContext; ROutputFile; RFormatContext] fresh_world)).
Proof. split; vm_compute; reflexivity. Qed.

(** C2 (the code departs from the claim).  The rebuild test compares
    the input geometry with the destination picture, not with the previous
    call.  On a 64x48 encoder, a 32x24 frame followed by a 64x48 frame
    creates one context only, and the second conversion runs on the
    context made for 32x24 input; two 32x24 frames in a row create two
    contexts although the geometry did not change. *)
Theorem C2_conversion_context_compared_with_destination :
  let '(_, w) := calls [CallEncodeFrame 32 24; CallEncodeFrame 64 48]
                       encoder_64x48 world_64x48 in
  let '(_, w') := calls [CallEncodeFrame 32 24; CallEncodeFrame 32 24]
                        encoder_64x48 world_64x48 in
  let small := mkSws 32 24 AV_PIX_FMT_RGB24 64 48 AV_PIX_FMT_YUV420P in
  sws_created w = [small]
  /\ scale_calls w = [mkScale small (3 * 32) 24; mkScale small (3 * 64) 48]
  /\ sws_created w' = [small; small].
Proof. vm_compute. repeat split. Qed.

Lemma nth_map_seq (f : nat -> Z) n i d :
  (i < n)%nat -> nth i (map f (seq 0 n)) d = f i.
Proof.
  intros Hi. rewrite nth_indep with (d' := f 0%nat)
    by (rewrite length_map, length_seq; exact Hi).
  rewrite map_nth, seq_nth by exact Hi. reflexivity.
Qed.

Lemma submitted_pts_map n :
  forall e w,
    0 <= m_pts e -> m_pts e + Z.of_nat n <= INT64_MAX ->
    submitted_pts n e w
    = map (fun i => av_rescale_q (m_pts e + Z.of_nat i)
                      (time_base (m_codec_context e))
                      (stream_time_base (m_stream e)))
          (seq 0 n).
Proof.
  induction n as [|n IH]; intros e w H0 Hmax; [reflexivity|].
  cbn [submitted_pts].
  pose proof (encodeFrame_AVFrame_effect e w) as He.
  destruct (encodeFrame_AVFrame e w) as [[o e'] w'].
  destruct He as [-> _]. cbn [seq map]. f_equal.
  - cbn. rewrite Z.add_0_r. reflexivity.
  - rewrite IH; cbn [m_pts set_m_frame set_m_pts m_codec_context m_stream].
    + rewrite <- seq_shift, map_map. apply map_ext. intros i.
      rewrite wrap64_small by (unfold INT64_MIN, INT64_MAX in *; lia).
      f_equal. lia.
    + rewrite wrap64_small by (unfold INT64_MIN, INT64_MAX in *; lia). lia.
    + rewrite wrap64_small by (unfold INT64_MIN, INT64_MAX in *; lia). lia.
Qed.

Lemma av_rescale_q_counter i cb sb :
  0 <= i -> 0 < num cb -> 0 < den cb -> 0 < num sb -> 0 < den sb ->
  i * (num cb * den sb) + num sb * den cb <= INT64_MAX ->
  av_rescale_q i cb sb = round_div i (num cb * den sb) (num sb * den cb).
Proof.
  intros Hi H1 H2 H3 H4 Hfit. unfold av_rescale_q. cbv zeta.
  apply av_rescale_rnd_nonneg; try nia.
  pose proof (round_div_le i (num cb * den sb) (num sb * den cb)). nia.
Qed.

(** C4, as amended.  The [i]-th frame submitted in a session is stamped
    with the frame counter [i] rescaled from the encoder's time base into
    the stream's; the sequence never decreases, and it is strictly
    increasing when one tick of the stream is no longer than one tick of
    the encoder. *)
Theorem C4_timestamps_rescaled_and_ordered :
  forall (e : VideoEncoder) (w : World) (n : nat),
    let cb := time_base (m_codec_context e) in
    let sb := stream_time_base (m_stream e) in
    m_pts e = 0 ->
    0 < num cb -> 0 < den cb -> 0 < num sb -> 0 < den sb ->
    Z.of_nat n * (num cb * den sb) + num sb * den cb <= INT64_MAX ->
    (forall i, (i < n)%nat ->
       nth i (submitted_pts n e w) 0 = av_rescale_q (Z.of_nat i) cb sb)
    /\ (forall i j, (i <= j < n)%nat ->
          nth i (submitted_pts n e w) 0 <= nth j (submitted_pts n e w) 0)
    /\ (num sb * den cb <= num cb * den sb ->
        forall i j, (i < j < n)%nat ->
          nth i (submitted_pts n e w) 0 < nth j (submitted_pts n e w) 0).
Proof.
  intros e w n cb sb Hp Hcn Hcd Hsn Hsd Hfit.
  assert (Hb : 1 <= num cb * den sb) by nia.
  assert (Hc : 1 <= num sb * den cb) by nia.
  assert (Hn : Z.of_nat n <= INT64_MAX) by nia.
  assert (Hi : forall i, (i < n)%nat ->
            Z.of_nat i * (num cb * den sb) + num sb * den cb <= INT64_MAX).
  { intros i Hi. apply Z.le_trans with (2 := Hfit).
    apply Z.add_le_mono_r, Z.mul_le_mono_nonneg_r; lia. }
  assert (Hnth : forall i, (i < n)%nat ->
            nth i (submitted_pts n e w) 0
            = round_div (Z.of_nat i) (num cb * den sb) (num sb * den cb)).
  { intros i Hlt. rewrite submitted_pts_map by lia.
    rewrite nth_map_seq by exact Hlt. rewrite Hp. cbn [Z.add].
    apply av_rescale_q_counter; try lia. apply Hi, Hlt. }
  split; [|split].
  - intros i Hlt. rewrite Hnth by exact Hlt. symmetry.
    apply av_rescale_q_counter; try lia. apply Hi, Hlt.
  - intros i j Hij. rewrite !Hnth by lia. apply round_div_mono; lia.
  - intros Hfine i j Hij. rewrite !Hnth by lia. apply round_div_strict; lia.
Qed.

Lemma C4_timestamps_rescaled_and_ordered_witness :
  (forall i, (i < 3)%nat ->
     nth i (submitted_pts 3 encoder_64x48 world_64x48) 0
     = av_rescale_q (Z.of_nat i) (mkRational 1000 25000) (mkRational 1000 25000))
  /\ (forall i j, (i <= j < 3)%nat ->
        nth i (submitted_pts 3 encoder_64x48 world_64x48) 0
        <= nth j (submitted_pts 3 encoder_64x48 world_64x48) 0)
  /\ (1000 * 25000 <= 1000 * 25000 ->
      forall i j, (i < j < 3)%nat ->
        nth i (submitted_pts 3 encoder_64x48 world_64x48) 0
        < nth j (submitted_pts 3 encoder_64x48 world_64x48) 0).
Proof.
  apply (C4_timestamps_rescaled_and_ordered encoder_64x48 world_64x48 3);
    vm_compute; first [reflexivity | discriminate].
Defined.

(** C4, the claim as stated fails: a muxer that keeps milliseconds and an
    encoder at 1500 frames per second.  Construction succeeds, and the
    second and third frames submitted both get timestamp 1. *)
Lemma C4_coarse_stream_time_base_repeats_timestamp :
  match VideoEncoder_new millisecond_muxer 64 48 1500000 400000 fresh_world with
  | (Ok e, w) =>
      stream_time_base (m_stream e) = mkRational 1 1000
      /\ submitted_pts 3 e w = [0; 1; 1]
  | (Throw _, _) => False
  end.
Proof. vm_compute. split; reflexivity. Qed.

(** C5.  In any state a caller can bring a constructed encoder to,
    [finalize] leaves a state that a further [finalize] does not change,
    any number of calls acts as one, the container has at most one
    trailer before and exactly one after, and the destructor writes the
    trailer when the caller never finalized and issues nothing to the
    muxer when the caller did. *)
Theorem C5_finalize_idempotent_single_trailer :
  forall env width height fps_milli bitrate w0 e0 w1 cs e w e' w',
    trailers w0 = 0%nat ->
    VideoEncoder_new env width height fps_milli bitrate w0 = (Ok e0, w1) ->
    calls cs e0 w1 = (e, w) ->
    finalize e w = (e', w') ->
    finalize e' w' = (e', w')
    /\ (forall k, calls (repeat CallFinalize (S k)) e w = (e', w'))
    /\ (trailers w <= 1)%nat
    /\ trailers w' = 1%nat
    /\ trailers (VideoEncoder_delete e w) = 1%nat
    /\ (m_finalized e = true ->
        mux_calls (VideoEncoder_delete e w) = mux_calls w)
    /\ (m_finalized e = false ->
        mux_calls (VideoEncoder_delete e w) = mux_calls w')
    /\ mux_calls (VideoEncoder_delete e' w') = mux_calls w'.
Proof.
  intros env width height fps_milli bitrate w0 e0 w1 cs e w e' w' H0 Hnew Hcs Hfin.
  destruct (VideoEncoder_new_ok _ _ _ _ _ _ _ _ Hnew) as (Hf0 & _ & Ht1).
  assert (Hinv : trailer_flag e w).
  { pose proof (calls_trailer_flag cs e0 w1) as H. rewrite Hcs in H. apply H.
    unfold trailer_flag. rewrite Hf0. congruence. }
  pose proof (finalize_effect e w) as He. rewrite Hfin in He.
  destruct He as (Hfe' & Htr & Hsame & _).
  assert (Hagain : finalize e' w' = (e', w')).
  { unfold finalize. rewrite Hfe'. reflexivity. }
  assert (Hone : trailers w' = 1%nat).
  { rewrite Htr. unfold trailer_flag in Hinv. destruct (m_finalized e); lia. }
  split; [exact Hagain|]. split; [|split; [|split; [|split; [|split; [|split]]]]].
  - intros k. cbn [repeat calls call]. rewrite Hfin. apply finalize_again, Hfe'.
  - unfold trailer_flag in Hinv. destruct (m_finalized e); lia.
  - exact Hone.
  - unfold trailers. rewrite delete_mux_calls, Hfin. exact Hone.
  - intros Ht. rewrite delete_mux_calls, Hfin. cbn [snd].
    destruct (Hsame Ht) as [_ ->]. reflexivity.
  - intros _. rewrite delete_mux_calls, Hfin. reflexivity.
  - rewrite delete_mux_calls, Hagain. reflexivity.
Qed.

Lemma C5_finalize_idempotent_single_trailer_witness :
  let cs := [CallEncodeFrame 64 48; CallFinalize; CallEncodeFrame 64 48] in
  let e := fst (calls cs encoder_64x48 world_64x48) in
  let w := snd (calls cs encoder_64x48 world_64x48) in
  finalize e w = (e, w)
  /\ (forall k, calls (repeat CallFinalize (S k)) e w = (e, w))
  /\ (trailers w <= 1)%nat
  /\ trailers w = 1%nat
  /\ trailers (VideoEncoder_delete e w) = 1%nat
  /\ (m_finalized e = true ->
      mux_calls (VideoEncoder_delete e w) = mux_calls w)
  /\ (m_finalized e = false ->
      mux_calls (VideoEncoder_delete e w) = mux_calls w)
  /\ mux_calls (VideoEncoder_delete e w) = mux_calls w.
Proof.
  intros cs e w.
  apply (C5_finalize_idempotent_single_trailer
           all_ok 64 48 25000 400000 fresh_world encoder_64x48 world_64x48
           cs e w e w); vm_compute; reflexivity.
Defined.




End EncoderClaims.

(** ** VideoDecoder: the decode loop *)

Section DecodeLoop.
Import Decoder.

Ltac open_decoder d :=
  let f := fresh "fmt" in
  let c := fresh "ctx" in
  let rs := fresh "reads" in
  let vs := fresh "recvs" in
  let dr := fresh "dr" in
  destruct d as [f c ? ? ?];
  destruct f as [? rs ? ?]; destruct c as [? ? dr ? vs].

Lemma turn_keeps_refl d : turn_keeps d d.
Proof. split; auto. exists []. reflexivity. Qed.

Lemma turn_keeps_set_frame f d : turn_keeps d (set_frame f d).
Proof. split; auto. exists []. reflexivity. Qed.

Lemma turn_keeps_trans d1 d2 d3 :
  turn_keeps d1 d2 -> turn_keeps d2 d3 -> turn_keeps d1 d3.
Proof.
  intros [S1 I1 [p1 E1]] [S2 I2 [p2 E2]]. split; try congruence.
  exists (p1 ++ p2). rewrite E1, E2, app_assoc. reflexivity.
Qed.

Lemma turn_keeps_stream d d' : turn_keeps d d' -> getStream d' = getStream d.
Proof. intros [S I _]. unfold getStream, stream_at. rewrite S, I. reflexivity. Qed.

Lemma read_packet_keeps d :
  let d' := snd (read_packet d) in
  streams (m_format_context d') = streams (m_format_context d)
  /\ m_video_stream_index d' = m_video_stream_index d
  /\ recv_script (m_codec_context d') = recv_script (m_codec_context d)
  /\ m_frame d' = m_frame d.
Proof.
  open_decoder d. unfold read_packet, av_read_frame. cbn.
  destruct reads as [|[ret idx] rest]; cbn; [auto|].
  repeat (case_if; cbn; auto).
Qed.

Lemma read_packet_turns p d :
  let d' := snd (read_packet d) in
  (read_script (m_format_context d) = [] ->
     draining (m_codec_context d') = true /\ turns p d' <= turns p d)%nat
  /\ (read_script (m_format_context d) <> [] -> turns p d' + 2 <= turns p d)%nat.
Proof.
  open_decoder d. unfold read_packet, av_read_frame, turns. cbn.
  destruct reads as [|[ret idx] rest]; cbn.
  - split; [intros _|congruence]. destruct dr; cbn; split; auto; lia.
  - split; [discriminate|intros _].
    repeat (case_if; cbn); destruct dr; cbn; lia.
Qed.

Lemma receive_frame_cases d :
  let '(ret, d') := avcodec_receive_frame d in
  (recv_script (m_codec_context d) = [] /\ d' = set_frame no_frame d
   /\ ret = (if draining (m_codec_context d) then AVERROR_EOF else AVERROR EAGAIN))
  \/ (exists pic,
        recv_script (m_codec_context d)
        = (ret, pic) :: recv_script (m_codec_context d')
        /\ streams (m_format_context d') = streams (m_format_context d)
        /\ read_script (m_format_context d') = read_script (m_format_context d)
        /\ m_video_stream_index d' = m_video_stream_index d
        /\ draining (m_codec_context d') = draining (m_codec_context d)
        /\ (0 <= ret -> m_frame d' = pic)).
Proof.
  open_decoder d. unfold avcodec_receive_frame. cbn.
  destruct recvs as [|[ret pic] rest]; cbn; [left; auto|].
  right. exists pic. repeat split; auto.
  intros H. replace (ret <? 0) with false by (symmetry; apply Z.ltb_ge; exact H).
  reflexivity.
Qed.

Lemma iteration_continue p d p' d' :
  iteration p d = Continue p' d' ->
  (turns p' d' < turns p d)%nat /\ turn_keeps d d'
  /\ p' = set_hasPendingFrames false p.
Proof.
  unfold iteration.
  pose proof (read_packet_keeps d) as Hk.
  pose proof (read_packet_turns p d) as Ht.
  destruct (hasPendingFrames p) eqn:Hp; cbn [negb].
  - clear Hk Ht.
    pose proof (receive_frame_cases d) as Hr.
    destruct (avcodec_receive_frame d) as [ret d1].
    destruct (ret =? AVERROR EAGAIN) eqn:Eag; [|repeat case_if; discriminate].
    intros H; injection H as Hp' Hd'; subst p' d'.
    apply Z.eqb_eq in Eag. split; [|split; [|reflexivity]].
    + destruct Hr as [(Hnil & Hd & Hret)|(pic & Hs & _ & Hrd & _ & Hdr & _)].
      * subst d1. unfold turns. cbn. rewrite Hp.
        destruct (draining (m_codec_context d)); [subst ret; discriminate|]. lia.
      * unfold turns. cbn. rewrite Hp, Hrd, Hdr, Hs. cbn.
        destruct (draining (m_codec_context d)); lia.
    + destruct Hr as [(Hnil & Hd & Hret)|(pic & Hs & Hst & _ & Hi & _ & _)].
      * subst d1. apply turn_keeps_set_frame.
      * split; auto. exists [(ret, pic)]. exact Hs.
  - destruct (read_packet d) as [ok d0]. cbn [snd] in Hk, Ht.
    destruct ok; cbn [negb]; [|discriminate].
    pose proof (receive_frame_cases d0) as Hr.
    destruct (avcodec_receive_frame d0) as [ret d1].
    destruct (ret =? AVERROR EAGAIN) eqn:Eag; [|repeat case_if; discriminate].
    intros H; injection H as Hp' Hd'; subst p' d'.
    apply Z.eqb_eq in Eag. destruct Hk as (Ks & Ki & Kr & _).
    split; [|split; [|reflexivity]].
    + destruct Hr as [(Hnil & Hd & Hret)|(pic & Hs & _ & Hrd & _ & Hdr & _)].
      * subst d1. destruct (read_script (m_format_context d)) eqn:Er.
        -- destruct Ht as [Ht _]. destruct (Ht eq_refl) as [Hd _].
           rewrite Hd in Hret. subst ret. discriminate.
        -- destruct Ht as [_ Ht]. specialize (Ht ltac:(discriminate)).
           unfold turns in *. cbn in *. rewrite Hp in Ht. lia.
      * assert (turns p d0 <= turns p d)%nat.
        { destruct (read_script (m_format_context d)) eqn:Er.
          - destruct Ht as [Ht _]. apply Ht. reflexivity.
          - destruct Ht as [_ Ht]. specialize (Ht ltac:(discriminate)). lia. }
        assert (turns (set_hasPendingFrames false p) d1 + 2 <= turns p d0)%nat; [|lia].
        unfold turns. cbn. rewrite Hp, Hrd, Hdr, Hs. cbn.
        destruct (draining (m_codec_context d0)); lia.
    + destruct Hr as [(Hnil & Hd & Hret)|(pic & Hs & Hst & _ & Hi & _ & _)].
      * subst d1. split; auto. exists []. cbn. rewrite Kr. reflexivity.
      * split; try congruence. exists [(ret, pic)]. rewrite <- Kr. exact Hs.
Qed.

Lemma iteration_return p d got p' d' :
  iteration p d = Return got p' d' ->
  turn_keeps d d'
  /\ p' = set_hasPendingFrames (hasPendingFrames p') p
  /\ (got = true ->
      delivers d d' /\ hasPendingFrames p' = true
      /\ (List.length (recv_script (m_codec_context d'))
          < List.length (recv_script (m_codec_context d)))%nat).
Proof.
  unfold iteration.
  pose proof (read_packet_keeps d) as Hk.
  set (r := if negb (hasPendingFrames p) then read_packet d else (true, d)).
  assert (Hk0 : streams (m_format_context (snd r)) = streams (m_format_context d)
                /\ m_video_stream_index (snd r) = m_video_stream_index d
                /\ recv_script (m_codec_context (snd r))
                   = recv_script (m_codec_context d)).
  { unfold r. cbv zeta in Hk. destruct (negb (hasPendingFrames p)); cbn [snd]; [tauto|auto]. }
  clear Hk. destruct r as [ok d0]. cbn [snd] in Hk0. destruct Hk0 as (Ks & Ki & Kr).
  assert (K0 : turn_keeps d d0) by (split; auto; exists []; rewrite Kr; reflexivity).
  assert (Hsame : forall q, q = set_hasPendingFrames (hasPendingFrames q) q)
    by (intros []; reflexivity).
  destruct ok; cbn [negb].
  2:{ intros H; injection H as Hg Hp' Hd'; subst got p' d'.
      split; [exact K0|]. split; [apply Hsame|discriminate]. }
  pose proof (receive_frame_cases d0) as Hr.
  destruct (avcodec_receive_frame d0) as [ret d1].
  assert (K1 : turn_keeps d0 d1).
  { destruct Hr as [(Hnil & Hd & Hret)|(pic & Hs & Hst & _ & Hi & _ & _)].
    - subst d1. apply turn_keeps_set_frame.
    - split; auto. exists [(ret, pic)]. exact Hs. }
  pose proof (turn_keeps_trans _ _ _ K0 K1) as K.
  destruct (ret =? AVERROR EAGAIN) eqn:Eag; [discriminate|].
  destruct (ret =? AVERROR_EOF) eqn:Eeof.
  { intros H; injection H as Hg Hp' Hd'; subst got p' d'.
    split; [exact K|]. split; [reflexivity|discriminate]. }
  destruct (ret <? 0) eqn:Eneg.
  { intros H; injection H as Hg Hp' Hd'; subst got p' d'.
    split; [exact K|]. split; [apply Hsame|discriminate]. }
  intros H; injection H as Hg Hp' Hd'; subst got p' d'.
  split; [exact K|]. split; [reflexivity|]. intros _.
  apply Z.ltb_ge in Eneg. apply Z.eqb_neq in Eag, Eeof.
  destruct Hr as [(Hnil & Hd & Hret)|(pic & Hs & _ & _ & _ & _ & Hf)].
  - exfalso. destruct (draining (m_codec_context d0)); congruence.
  - split; [|split; [reflexivity|]].
    + exists [], ret. rewrite <- Kr, Hs, (Hf Eneg). auto.
    + rewrite <- Kr, Hs. cbn. lia.
Qed.

(** The loop never reaches its fuel: more fuel changes nothing. *)
Lemma getNextFrame_loop_enough n :
  forall p d, (turns p d <= n)%nat ->
    getNextFrame_loop n p d = getNextFrame_AVFrame p d.
Proof.
  unfold getNextFrame_AVFrame.
  induction n as [n IH] using lt_wf_ind. intros p d Hn.
  assert (Hpos : (0 < turns p d)%nat) by (unfold turns; lia).
  destruct n as [|n]; [lia|].
  destruct (turns p d) as [|m] eqn:Em; [lia|].
  cbn [getNextFrame_loop].
  destruct (iteration p d) as [got p' d'|p' d'] eqn:Ei; [reflexivity|].
  apply iteration_continue in Ei. destruct Ei as (Hlt & _ & _).
  rewrite (IH n) by lia. rewrite (IH m) by lia. reflexivity.
Qed.

Lemma getNextFrame_AVFrame_unfold p d :
  getNextFrame_AVFrame p d
  = match iteration p d with
    | Return got p' d' => (got, p', d')
    | Continue p' d' => getNextFrame_AVFrame p' d'
    end.
Proof.
  unfold getNextFrame_AVFrame at 1.
  assert (Hpos : (0 < turns p d)%nat) by (unfold turns; lia).
  destruct (turns p d) as [|m] eqn:Em; [lia|].
  cbn [getNextFrame_loop].
  destruct (iteration p d) as [got p' d'|p' d'] eqn:Ei; [reflexivity|].
  apply iteration_continue in Ei. destruct Ei as (Hlt & _ & _).
  apply getNextFrame_loop_enough. lia.
Qed.

(** What a call of the private [getNextFrame] does. *)
Lemma getNextFrame_AVFrame_effect p d :
  let '(got, p', d') := getNextFrame_AVFrame p d in
  turn_keeps d d'
  /\ p' = set_hasPendingFrames (hasPendingFrames p') p
  /\ (got = true ->
      delivers d d' /\ hasPendingFrames p' = true
      /\ (List.length (recv_script (m_codec_context d'))
          < List.length (recv_script (m_codec_context d)))%nat).
Proof.
  remember (turns p d) as n eqn:En.
  revert p d En. induction n as [n IH] using lt_wf_ind. intros p d En.
  rewrite getNextFrame_AVFrame_unfold.
  destruct (iteration p d) as [got p' d'|p' d'] eqn:Ei.
  - apply iteration_return in Ei. exact Ei.
  - apply iteration_continue in Ei. destruct Ei as (Hlt & K & Hp).
    specialize (IH (turns p' d') ltac:(lia) p' d' eq_refl).
    destruct (getNextFrame_AVFrame p' d') as [[got p''] d''].
    destruct IH as (K' & Hp' & Hd). split; [|split].
    + eapply turn_keeps_trans; eassumption.
    + rewrite Hp', Hp. reflexivity.
    + intros Hg. destruct (Hd Hg) as ((pre & ret & E & Hret) & Hh & Hl).
      destruct K as [_ _ [pre0 E0]].
      split; [|split; [exact Hh|]].
      * exists (pre0 ++ pre), ret. rewrite E0, E, app_assoc. auto.
      * rewrite E0, length_app. lia.
Qed.

End DecodeLoop.

(** ** VideoDecoder: seeking *)

Section Seeking.
Import Decoder.

Lemma seek_prepare_keeps ts d :
  let d' := snd (av_seek_frame ts (avcodec_flush_buffers d)) in
  recv_script (m_codec_context d') = recv_script (m_codec_context d)
  /\ turn_keeps d d' /\ getStream d' = getStream d.
Proof.
  cbv zeta. unfold av_seek_frame, avcodec_flush_buffers. cbn.
  assert (K : forall x y, recv_script (m_codec_context x) = recv_script (m_codec_context y) ->
            streams (m_format_context x) = streams (m_format_context y) ->
            m_video_stream_index x = m_video_stream_index y -> turn_keeps y x).
  { intros x y H1 H2 H3. split; auto. exists []. rewrite H1. reflexivity. }
  split; [reflexivity|]. split; [apply K; reflexivity|reflexivity].
Qed.

Lemma delivers_after d0 d d' : turn_keeps d0 d -> delivers d d' -> delivers d0 d'.
Proof.
  intros [_ _ [pre0 E0]] (pre & ret & E & Hret).
  exists (pre0 ++ pre), ret. rewrite E0, E, app_assoc. auto.
Qed.

(** A seek that reports success stopped on a picture at or after the
    target, and that picture has been taken off the stream. *)
Lemma seek_loop_true n t :
  forall p d p' d',
    seek_loop n t p d = (true, p', d') ->
    t <= getBestEffortTimestampInMicroseconds (m_frame d') (getStream d')
    /\ delivers d d' /\ turn_keeps d d'.
Proof.
  induction n as [|n IH]; intros p d p' d'; cbn [seek_loop]; [discriminate|].
  pose proof (getNextFrame_AVFrame_effect p d) as He.
  destruct (getNextFrame_AVFrame p d) as [[got p1] d1].
  destruct He as (K & _ & Hd).
  destruct got; [|discriminate].
  destruct (Hd eq_refl) as (Hdel & _ & _).
  destruct (t <=? getBestEffortTimestampInMicroseconds (m_frame d1) (getStream d1)) eqn:Et.
  - intros H; injection H as Hp Hdd; subst p' d'.
    apply Z.leb_le in Et. auto.
  - intros H. destruct (IH _ _ _ _ H) as (H1 & H2 & H3).
    split; [exact H1|]. split.
    + eapply delivers_after; eassumption.
    + eapply turn_keeps_trans; eassumption.
Qed.

(** When every picture still to come lies before the target, the seek
    reports failure. *)
Lemma seek_loop_all_before n t :
  forall p d,
    (forall ret f, In (ret, f) (recv_script (m_codec_context d)) -> 0 <= ret ->
                   getBestEffortTimestampInMicroseconds f (getStream d) < t) ->
    fst (fst (seek_loop n t p d)) = false.
Proof.
  induction n as [|n IH]; intros p d Hall; cbn [seek_loop]; [reflexivity|].
  pose proof (getNextFrame_AVFrame_effect p d) as He.
  destruct (getNextFrame_AVFrame p d) as [[got p1] d1].
  destruct He as (K & _ & Hd).
  destruct got; [|reflexivity].
  destruct (Hd eq_refl) as ((pre & ret & E & Hret) & _ & _).
  pose proof (turn_keeps_stream _ _ K) as Hs.
  assert (Hlt : getBestEffortTimestampInMicroseconds (m_frame d1) (getStream d1) < t).
  { rewrite Hs. apply (Hall ret); [|exact Hret].
    rewrite E. apply in_or_app. right. left. reflexivity. }
  replace (t <=? _) with false by (symmetry; apply Z.leb_gt; exact Hlt).
  apply IH. intros ret' f Hin Hr. rewrite Hs. apply (Hall ret'); [|exact Hr].
  rewrite E. apply in_or_app. right. right. exact Hin.
Qed.

(** The seek loop never reaches its fuel. *)
Lemma seek_loop_enough n :
  forall t p d,
    (List.length (recv_script (m_codec_context d)) < n)%nat ->
    seek_loop n t p d
    = seek_loop (S (List.length (recv_script (m_codec_context d)))) t p d.
Proof.
  induction n as [n IH] using lt_wf_ind. intros t p d Hn.
  destruct n as [|n]; [lia|]. cbn [seek_loop].
  pose proof (getNextFrame_AVFrame_effect p d) as He.
  destruct (getNextFrame_AVFrame p d) as [[got p1] d1].
  destruct He as (_ & _ & Hd).
  destruct got; [|reflexivity].
  destruct (Hd eq_refl) as (_ & _ & Hl).
  case_if; [reflexivity|].
  rewrite (IH n) by lia.
  rewrite (IH (List.length (recv_script (m_codec_context d)))) by lia.
  reflexivity.
Qed.

End Seeking.

(** ** VideoDecoder: the claims *)

Section DecoderClaims.
Import Decoder Scenario.

(** The outcomes of the public [getNextFrame]. *)
Lemma getNextFrame_outcome (want_pts : bool) (p : Process) (d : VideoDecoder) :
  let '(o, p', d') := getNextFrame want_pts p d in
  match o with
  | Ok (true, ts) =>
      rgb_written p' = rgb_written p ++ [m_frame d']
      /\ ts = (if want_pts
               then Some (getBestEffortTimestampInMicroseconds
                            (m_frame d') (getStream d'))
               else None)
  | Ok (false, ts) =>
      ts = None /\ rgb_written p' = rgb_written p
      /\ fst (fst (getNextFrame_AVFrame p d)) = false
  | Throw msg =>
      msg = "failed to create scaling context"
      /\ fst (fst (getNextFrame_AVFrame p d)) = true
      /\ hd true (sws_script p) = false
      /\ rgb_written p' = rgb_written p
  end.
Proof.
  unfold getNextFrame.
  pose proof (getNextFrame_AVFrame_effect p d) as He.
  destruct (getNextFrame_AVFrame p d) as [[got p1] d1].
  destruct He as (_ & Hp & _). cbn [fst].
  destruct got; [|rewrite Hp; auto].
  unfold convertAVFrameToRGBBuffer.
  assert (Hs : sws_script p1 = sws_script p) by (rewrite Hp; reflexivity).
  assert (Hw : rgb_written p1 = rgb_written p) by (rewrite Hp; reflexivity).
  rewrite Hs. destruct (hd true (sws_script p)); cbn.
  - rewrite Hw. auto.
  - rewrite Hw. auto.
Qed.

Lemma getNextFrame_keeps (want_pts : bool) (p : Process) (d : VideoDecoder) :
  turn_keeps d (snd (getNextFrame want_pts p d)).
Proof.
  unfold getNextFrame.
  pose proof (getNextFrame_AVFrame_effect p d) as He.
  destruct (getNextFrame_AVFrame p d) as [[got p1] d1].
  destruct He as (K & _ & _).
  destruct got; [|exact K].
  destruct (convertAVFrameToRGBBuffer (m_frame d1) p1) as [[] ?]; exact K.
Qed.


Lemma to_microseconds_nearest a tb :
  0 < num tb -> 0 < den tb -> - INT64_MAX <= a ->
  round_div (Z.abs a) (num tb * AV_TIME_BASE) (den tb) <= INT64_MAX ->
  2 * (a * (num tb * AV_TIME_BASE)) - den tb
  <= 2 * den tb * av_rescale_q a tb (mkRational 1 AV_TIME_BASE)
  <= 2 * (a * (num tb * AV_TIME_BASE)) + den tb.
Proof.
  intros Hn Hd Ha Hfit. unfold av_rescale_q. cbn [num den].
  rewrite Z.mul_1_l. apply av_rescale_rnd_nearest; trivial.
  unfold AV_TIME_BASE. lia.
Qed.

Lemma to_microseconds_nonneg a tb :
  0 < num tb -> 0 < den tb -> 0 <= a ->
  round_div a (num tb * AV_TIME_BASE) (den tb) <= INT64_MAX ->
  av_rescale_q a tb (mkRational 1 AV_TIME_BASE)
  = (a * (num tb * AV_TIME_BASE) + den tb / 2) / den tb.
Proof.
  intros Hn Hd Ha Hfit. unfold av_rescale_q. cbn [num den].
  rewrite Z.mul_1_l. apply av_rescale_rnd_nonneg; trivial.
  unfold AV_TIME_BASE. lia.
Qed.

(** C7.  [getTotalDuration] is the stream duration, and the timestamp of
    a picture its best-effort timestamp, times the stream's time base
    times 1000000, computed in integers: the integer nearest to the
    rational value (within one half of it), with the closed form
    [(a * num * 1000000 + den / 2) / den] on non-negative input; the [pts]
    output of [getNextFrame] is that timestamp of the picture
    delivered. *)
Theorem C7_microseconds_by_exact_rescaling :
  forall (d : VideoDecoder),
    let s := getStream d in
    let tb := time_base s in
    let fits a := round_div (Z.abs a) (num tb * AV_TIME_BASE) (den tb) <= INT64_MAX in
    let nearest a r :=
      2 * (a * (num tb * AV_TIME_BASE)) - den tb
      <= 2 * den tb * r
      <= 2 * (a * (num tb * AV_TIME_BASE)) + den tb in
    let closed a := (a * (num tb * AV_TIME_BASE) + den tb / 2) / den tb in
    0 < num tb -> 0 < den tb ->
    (- INT64_MAX <= duration s -> fits (duration s) ->
     nearest (duration s) (getTotalDuration d))
    /\ (0 <= duration s -> fits (duration s) ->
        getTotalDuration d = closed (duration s))
    /\ (forall f, - INT64_MAX <= best_effort_timestamp f ->
                  fits (best_effort_timestamp f) ->
                  nearest (best_effort_timestamp f)
                          (getBestEffortTimestampInMicroseconds f s))
    /\ (forall f, 0 <= best_effort_timestamp f ->
                  fits (best_effort_timestamp f) ->
                  getBestEffortTimestampInMicroseconds f s
                  = closed (best_effort_timestamp f))
    /\ (forall p,
           let '(o, _, d') := getNextFrame true p d in
           match o with
           | Ok (true, ts) =>
               ts = Some (getBestEffortTimestampInMicroseconds (m_frame d') s)
           | Ok (false, ts) => ts = None
           | Throw _ => True
           end).
Proof.
  intros d s tb fits nearest closed Hn Hd.
  split; [|split; [|split; [|split]]].
  - intros Ha Hf. apply to_microseconds_nearest; assumption.
  - intros Ha Hf. apply to_microseconds_nonneg; trivial.
    unfold fits in Hf. rewrite Z.abs_eq in Hf by exact Ha. exact Hf.
  - intros f Ha Hf. apply to_microseconds_nearest; assumption.
  - intros f Ha Hf. apply to_microseconds_nonneg; trivial.
    unfold fits in Hf. rewrite Z.abs_eq in Hf by exact Ha. exact Hf.
  - intros p.
    pose proof (getNextFrame_outcome true p d) as H3.
    pose proof (getNextFrame_keeps true p d) as Hk.
    destruct (getNextFrame true p d) as [[o p'] d']. cbn [snd] in Hk.
    apply turn_keeps_stream in Hk. fold s in Hk.
    destruct o as [[[] ts]|msg]; [|tauto|exact I].
    destruct H3 as [_ ->]. rewrite Hk. reflexivity.
Qed.

Lemma C7_microseconds_by_exact_rescaling_witness :
  getTotalDuration broadcast_clip = 30001111
  /\ (2 * (2700100 * (1 * 1000000)) - 90000
      <= 2 * 90000 * getTotalDuration broadcast_clip
      <= 2 * (2700100 * (1 * 1000000)) + 90000)
  /\ fst (fst (getNextFrame true initial_process broadcast_clip))
     = Ok (true, Some 40000).
Proof.
  destruct (C7_microseconds_by_exact_rescaling broadcast_clip)
    as (Hnear & Hclosed & _ & _ & Hpts).
  - vm_compute. reflexivity.
  - vm_compute. reflexivity.
  - split; [|split].
    + rewrite Hclosed; vm_compute; [reflexivity|discriminate|discriminate].
    + apply Hnear; vm_compute; discriminate.
    + vm_compute. reflexivity.
Defined.

(** The constructor's loop ends on the last stream of video type, and on
    [found] when there is none. *)
Lemma find_video_stream_last ss :
  forall i found,
    match rev (filter is_video ss) with
    | [] => find_video_stream ss i found = found
    | s :: _ =>
        i <= find_video_stream ss i found
        /\ nth (Z.to_nat (find_video_stream ss i found - i)) ss no_stream = s
    end.
Proof.
  induction ss as [|s0 ss IH]; intros i found; cbn [filter rev find_video_stream];
    [reflexivity|].
  specialize (IH (i + 1) (if codec_type s0 =? AVMEDIA_TYPE_VIDEO then i else found)).
  unfold is_video at 1.
  set (r := find_video_stream ss (i + 1) _) in *.
  destruct (rev (filter is_video ss)) as [|s rest] eqn:Er.
  - destruct (codec_type s0 =? AVMEDIA_TYPE_VIDEO); cbn [rev app]; rewrite ?Er; cbn [app].
    + rewrite IH. split; [lia|]. rewrite Z.sub_diag. reflexivity.
    + exact IH.
  - destruct IH as [Hle Hnth].
    assert (Hgoal : i <= r /\ nth (Z.to_nat (r - i)) (s0 :: ss) no_stream = s).
    { split; [lia|]. replace (Z.to_nat (r - i)) with (S (Z.to_nat (r - (i + 1)))) by lia.
      exact Hnth. }
    destruct (codec_type s0 =? AVMEDIA_TYPE_VIDEO); cbn [rev]; rewrite ?Er; exact Hgoal.
Qed.

(** C8.  The constructor throws exactly when the spec prescribes a
    failure, with a message of the prescribed kind, and then holds no
    resource it did not hold before; otherwise it returns a decoder on
    the last video stream and holds the four resources of the object. *)
Theorem C8_decoder_construction_failures :
  forall (env : CtorEnv) (p : Process),
    match VideoDecoder_new env p with
    | (Throw msg, p') =>
        error_kind msg = spec_failure env
        /\ (exists kind, spec_failure env = Some kind)
        /\ live p' = live p
    | (Ok d, p') =>
        spec_failure env = None
        /\ live p' = [RFrame; RPacket; RCodecContext; RFormatContext] ++ live p
        /\ is_video (getStream d) = true
    end.
Proof.
  intros env p. unfold VideoDecoder_new, spec_failure.
  destruct (open_input env) as [fmt|]; [|cbn; eauto].
  destruct (find_stream_info_ret env <? 0); [cbn; eauto|].
  pose proof (find_video_stream_last (streams fmt) 0 (-1)) as Hlast.
  destruct (rev (filter is_video (streams fmt))) as [|s rest] eqn:Er.
  { rewrite Hlast. cbn. eauto. }
  destruct Hlast as [Hle Hnth].
  replace (find_video_stream (streams fmt) 0 (-1) =? -1) with false
    by (symmetry; apply Z.eqb_neq; lia).
  unfold stream_at. rewrite Z.sub_0_r in Hnth. rewrite Hnth.
  assert (Hvid : is_video s = true).
  { assert (Hin : In s (filter is_video (streams fmt))).
    { apply in_rev. rewrite Er. left. reflexivity. }
    apply filter_In in Hin. tauto. }
  destruct (find_decoder env (codec_id s)); cbn [negb]; [|cbn; eauto].
  destruct (alloc_context env) as [ctx|]; [|cbn; eauto].
  destruct (parameters_to_context_ret env <? 0); [cbn; eauto|].
  destruct (open2_ret env <? 0); [cbn; eauto|].
  destruct (packet_alloc_ok env); cbn [negb orb]; [|cbn; eauto].
  destruct (frame_alloc_ok env); cbn [negb orb]; [|cbn; eauto].
  split; [reflexivity|]. split; [reflexivity|].
  unfold getStream, stream_at. cbn [m_format_context m_video_stream_index].
  rewrite Hnth. exact Hvid.
Qed.

(** C9.  [hasPendingFrames] belongs to the process, not to a decoder.
    After one decoder has delivered a picture the flag is set, and the
    next call on a second decoder starts by draining instead of reading a
    packet, where the same decoder in the same state reads one when the
    flag is clear; the two calls end in different states.  [seekToTimestamp]
    hands the flag as it finds it to the decode loop, and returns it
    untouched when the backward seek fails. *)
Theorem C9_pending_flag_shared_between_decoders :
  (let '(gotA, p1, _) := getNextFrame_AVFrame initial_process three_pictures in
   gotA = true /\ hasPendingFrames p1 = true
   /\ match iteration p1 second_file, iteration initial_process second_file with
      | Continue _ after, Continue _ alone =>
          read_script (m_format_context after)
          = read_script (m_format_context second_file)
          /\ read_script (m_format_context alone)
             = tl (read_script (m_format_context second_file))
      | _, _ => False
      end
   /\ snd (getNextFrame_AVFrame p1 second_file)
      <> snd (getNextFrame_AVFrame initial_process second_file))
  /\ (forall t p d,
        hd 0 (seek_script (m_format_context d)) < 0 ->
        seekToTimestamp t p d
        = (false, p,
           snd (av_seek_frame
                  (av_rescale_q t AV_TIME_BASE_Q (time_base (getStream d)))
                  (avcodec_flush_buffers d))))
  /\ (forall t p d,
        0 <= hd 0 (seek_script (m_format_context d)) ->
        let d0 := snd (av_seek_frame
                         (av_rescale_q t AV_TIME_BASE_Q (time_base (getStream d)))
                         (avcodec_flush_buffers d)) in
        seekToTimestamp t p d
        = seek_loop (S (List.length (recv_script (m_codec_context d0)))) t p d0)
  /\ snd (seekToTimestamp 0 (set_hasPendingFrames true initial_process) second_file)
     <> snd (seekToTimestamp 0 initial_process second_file).
Proof.
  split; [|split; [|split]].
  - vm_compute. repeat split; discriminate.
  - intros t p d H. unfold seekToTimestamp, av_seek_frame. cbn [fst snd].
    replace (hd 0 (seek_script (m_format_context (avcodec_flush_buffers d))) <? 0)
      with true; [reflexivity|].
    symmetry. apply Z.ltb_lt. exact H.
  - intros t p d H. unfold seekToTimestamp, av_seek_frame. cbn [fst snd].
    replace (hd 0 (seek_script (m_format_context (avcodec_flush_buffers d))) <? 0)
      with false; [reflexivity|].
    symmetry. apply Z.ltb_ge. exact H.
  - vm_compute. discriminate.
Qed.

End DecoderClaims.

(** ** VideoEncoder: resources, conversions and muxer calls *)

Section EncoderSession.
Import Encoder Scenario.

Lemma writes_packets_only_refl w : writes_packets_only w w.
Proof. repeat split. exists 0%nat. cbn. rewrite app_nil_r. reflexivity. Qed.

Lemma writes_packets_only_trans w1 w2 w3 :
  writes_packets_only w1 w2 -> writes_packets_only w2 w3 ->
  writes_packets_only w1 w3.
Proof.
  intros (L1 & S1 & C1 & T1 & k1 & M1) (L2 & S2 & C2 & T2 & k2 & M2).
  repeat split; try congruence.
  exists (k1 + k2)%nat. rewrite M2, M1, <- app_assoc, repeat_app. reflexivity.
Qed.

Lemma receive_packet_only w : writes_packets_only w (snd (avcodec_receive_packet w)).
Proof.
  unfold avcodec_receive_packet. destruct (recv_script w); cbn;
    apply writes_packets_only_refl || (repeat split; exists 0%nat; cbn;
                                       rewrite app_nil_r; reflexivity).
Qed.

Lemma write_frame_only w : writes_packets_only w (av_interleaved_write_frame w).
Proof. repeat split. exists 1%nat. reflexivity. Qed.

Lemma send_frame_only s w : writes_packets_only w (snd (avcodec_send_frame s w)).
Proof.
  unfold avcodec_send_frame. destruct (draining w); cbn;
    [apply writes_packets_only_refl|].
  destruct (s && _); repeat split; exists 0%nat; cbn; rewrite app_nil_r; reflexivity.
Qed.

Lemma receive_loop_only n w : writes_packets_only w (snd (receive_loop n w)).
Proof.
  revert w. induction n as [|n IH]; intros w; cbn [receive_loop];
    [apply writes_packets_only_refl|].
  pose proof (receive_packet_only w) as Hr.
  destruct (avcodec_receive_packet w) as [ret w1]. cbn [snd] in Hr.
  repeat case_if; cbn [snd]; try exact Hr.
  eapply writes_packets_only_trans; [exact Hr|].
  eapply writes_packets_only_trans; [apply write_frame_only|apply IH].
Qed.

Lemma send_loop_only n w : writes_packets_only w (snd (send_loop n w)).
Proof.
  revert w. induction n as [|n IH]; intros w; cbn [send_loop];
    [apply writes_packets_only_refl|].
  pose proof (send_frame_only false w) as Hs.
  destruct (avcodec_send_frame false w) as [ret w1]. cbn [snd] in Hs.
  case_if.
  - pose proof (receive_loop_only (S (List.length (recv_script w1))) w1) as Hr.
    unfold receive_all. destruct (receive_loop _ w1) as [[] w2]; cbn [snd] in *.
    + eapply writes_packets_only_trans; [exact Hs|].
      eapply writes_packets_only_trans; [exact Hr|apply IH].
    + eapply writes_packets_only_trans; eassumption.
    + eapply writes_packets_only_trans; eassumption.
  - repeat case_if; exact Hs.
Qed.

Lemma encodeFrame_AVFrame_only e w :
  writes_packets_only w (snd (encodeFrame_AVFrame e w)).
Proof.
  unfold encodeFrame_AVFrame.
  pose proof (send_loop_only (S (List.length (send_script w))) w) as Hs.
  unfold send_all. destruct (send_loop _ w) as [[] w1]; cbn [snd] in *; try exact Hs.
  pose proof (receive_loop_only (S (List.length (recv_script w1))) w1) as Hr.
  unfold receive_all. destruct (receive_loop _ w1) as [[] w2]; cbn [snd] in *;
    eapply writes_packets_only_trans; eassumption.
Qed.

(** What the private [encodeFrame] throws, and when it returns. *)
Lemma encodeFrame_AVFrame_outcome e w :
  match fst (fst (encodeFrame_AVFrame e w)) with
  | Ok _ => True
  | Throw msg => msg = "Error sending frame to encoder"
                 \/ msg = "Error receiving packet from encoder"
  end.
Proof.
  unfold encodeFrame_AVFrame.
  assert (Hsend : forall n w0, match fst (send_loop n w0) with
                               | SendThrow msg =>
                                   msg = "Error sending frame to encoder"
                                   \/ msg = "Error receiving packet from encoder"
                               | _ => True
                               end).
  { induction n as [|n IH]; intros w0; cbn [send_loop fst]; [exact I|].
    destruct (avcodec_send_frame false w0) as [ret w1].
    case_if.
    - destruct (receive_all w1) as [[] w2]; cbn [fst]; auto. apply IH.
    - repeat case_if; cbn [fst]; auto. }
  specialize (Hsend (S (List.length (send_script w))) w). unfold send_all.
  destruct (send_loop _ w) as [[| |msg] w1]; cbn [fst] in *; auto.
  destruct (receive_all w1) as [[] w2]; cbn [fst]; auto.
Qed.

(** The three ways through the public [encodeFrame]. *)
Lemma encodeFrame_cases width height e w :
  let w0 := sws_freeContext (m_sws_context e) w in
  let w1 := set_sws_script (tl (sws_script w0)) w0 in
  let c := context_for width height e in
  (hd true (sws_script w0) = false
   /\ (m_sws_context e = None
       \/ width <> frame_width (m_frame e) \/ height <> frame_height (m_frame e))
   /\ encodeFrame width height e w
      = (Throw "Failed to create scaling context", set_m_sws_context None e, w1))
  \/ (hd true (sws_script w0) = true
      /\ (m_sws_context e = None
          \/ width <> frame_width (m_frame e) \/ height <> frame_height (m_frame e))
      /\ encodeFrame width height e w
         = encodeFrame_AVFrame
             (set_m_sws_context (Some c) e)
             (sws_scale c (3 * width) height
                (set_sws_created (sws_created w1 ++ [c]) (acquire_in RSwsContext w1))))
  \/ (exists c0, m_sws_context e = Some c0
      /\ width = frame_width (m_frame e) /\ height = frame_height (m_frame e)
      /\ encodeFrame width height e w
         = encodeFrame_AVFrame e (sws_scale c0 (3 * width) height w)).
Proof.
  cbv zeta. unfold encodeFrame.
  set (rebuild := match m_sws_context e with None => true | Some _ => _ end).
  assert (Hreb : rebuild = true ->
                 m_sws_context e = None
                 \/ width <> frame_width (m_frame e)
                 \/ height <> frame_height (m_frame e)).
  { unfold rebuild. destruct (m_sws_context e); [|auto].
    intros H. apply orb_true_iff in H. right.
    destruct H as [H|H]; apply negb_true_iff, Z.eqb_neq in H; auto. }
  assert (Hkeep : rebuild = false ->
                  exists c0, m_sws_context e = Some c0
                  /\ width = frame_width (m_frame e)
                  /\ height = frame_height (m_frame e)).
  { unfold rebuild. destruct (m_sws_context e) as [c0|]; [|discriminate].
    intros H. apply orb_false_iff in H. destruct H as [H1 H2].
    apply negb_false_iff, Z.eqb_eq in H1, H2. eauto. }
  destruct rebuild.
  - specialize (Hreb eq_refl). unfold sws_getContext.
    destruct (hd true (sws_script (sws_freeContext (m_sws_context e) w))) eqn:Eok.
    + right. left. auto.
    + left. auto.
  - destruct (Hkeep eq_refl) as (c0 & Hc & Hw & Hh).
    right. right. exists c0. rewrite Hc. auto.
Qed.

(** What a successful construction leaves. *)
Lemma VideoEncoder_new_state env width height fps_milli bitrate w e w' :
  VideoEncoder_new env width height fps_milli bitrate w = (Ok e, w') ->
  m_sws_context e = None
  /\ frame_width (m_frame e) = width /\ frame_height (m_frame e) = height
  /\ pix_fmt (m_codec_context e) = AV_PIX_FMT_YUV420P
  /\ live w' = owned e ++ live w
  /\ scale_calls w' = scale_calls w /\ sws_created w' = sws_created w.
Proof.
  unfold VideoEncoder_new. destruct (alloc_output_context env) as [fmt|]; [|discriminate].
  destruct (AVFMT_NOFILE fmt) eqn:Enf; cbn [negb andb];
    repeat case_if; try discriminate; intros H; inversion H; subst; clear H;
    unfold owned; cbn; rewrite ?Enf; repeat split; reflexivity.
Qed.

Lemma encodeFrame_AVFrame_object e w :
  let e' := snd (fst (encodeFrame_AVFrame e w)) in
  m_sws_context e' = m_sws_context e
  /\ m_format_context e' = m_format_context e
  /\ m_codec_context e' = m_codec_context e
  /\ frame_width (m_frame e') = frame_width (m_frame e)
  /\ frame_height (m_frame e') = frame_height (m_frame e)
  /\ m_finalized e' = m_finalized e
  /\ m_pts e' = wrap64 (m_pts e + 1).
Proof.
  pose proof (encodeFrame_AVFrame_effect e w) as He.
  destruct (encodeFrame_AVFrame e w) as [[o e'] w']. destruct He as [-> _].
  cbn. repeat split.
Qed.

Lemma flush_loop_only n w : writes_packets_only w (flush_loop n w).
Proof.
  revert w. induction n as [|n IH]; intros w; cbn [flush_loop];
    [apply writes_packets_only_refl|].
  pose proof (receive_packet_only w) as Hr.
  destruct (avcodec_receive_packet w) as [ret w1]. cbn [snd] in Hr.
  case_if; [exact Hr|].
  eapply writes_packets_only_trans; [exact Hr|].
  eapply writes_packets_only_trans; [apply write_frame_only|apply IH].
Qed.

Lemma finalize_object e w :
  let '(e', w') := finalize e w in
  m_sws_context e' = m_sws_context e
  /\ m_format_context e' = m_format_context e
  /\ m_codec_context e' = m_codec_context e
  /\ m_frame e' = m_frame e
  /\ live w' = live w /\ scale_calls w' = scale_calls w
  /\ sws_created w' = sws_created w.
Proof.
  unfold finalize. destruct (m_finalized e); cbn [negb]; [repeat split|].
  pose proof (send_frame_only true w) as Hs.
  destruct (avcodec_send_frame true w) as [ret w1]. cbn [snd] in Hs.
  pose proof (flush_loop_only (S (List.length (recv_script w1))) w1) as Hf.
  destruct (writes_packets_only_trans _ _ _ Hs Hf) as (L & S & C & _).
  repeat split; assumption.
Qed.

Lemma owned_same e e' :
  m_sws_context e' = m_sws_context e ->
  m_format_context e' = m_format_context e ->
  owned e' = owned e.
Proof. intros H1 H2. unfold owned. rewrite H1, H2. reflexivity. Qed.

Lemma call_held base c e w :
  live w = owned e ++ base ->
  live (snd (call c e w)) = owned (fst (call c e w)) ++ base.
Proof.
  intros Hheld. destruct c as [wd ht|]; cbn [call].
  - destruct (encodeFrame_cases wd ht e w) as [(_ & _ & ->)|[(_ & _ & ->)|(c0 & Hc & _ & _ & ->)]].
    + cbn [fst snd]. unfold sws_freeContext, owned in *.
      destruct (m_sws_context e); cbn in *; rewrite Hheld; reflexivity.
    + match goal with |- context [encodeFrame_AVFrame ?a ?b] =>
        pose proof (encodeFrame_AVFrame_object a b) as Ho;
        pose proof (encodeFrame_AVFrame_only a b) as Hw;
        destruct (encodeFrame_AVFrame a b) as [[o e'] w'] end.
      cbn [fst snd] in *. destruct Ho as (Hs & Hf & _), Hw as (Hl & _).
      rewrite Hl. unfold owned. rewrite Hs, Hf. cbn.
      unfold sws_freeContext, owned in *.
      destruct (m_sws_context e); cbn in *; rewrite Hheld; reflexivity.
    + match goal with |- context [encodeFrame_AVFrame ?a ?b] =>
        pose proof (encodeFrame_AVFrame_object a b) as Ho;
        pose proof (encodeFrame_AVFrame_only a b) as Hw;
        destruct (encodeFrame_AVFrame a b) as [[o e'] w'] end.
      cbn [fst snd] in *. destruct Ho as (Hs & Hf & _), Hw as (Hl & _).
      rewrite Hl, (owned_same _ _ Hs Hf). exact Hheld.
  - pose proof (finalize_object e w) as Hf.
    destruct (finalize e w) as [e' w']. cbn [fst snd].
    destruct Hf as (Hs & Hfm & _ & _ & Hl & _).
    rewrite Hl, (owned_same _ _ Hs Hfm). exact Hheld.
Qed.

Lemma calls_held base cs :
  forall e w,
    live w = owned e ++ base ->
    live (snd (calls cs e w)) = owned (fst (calls cs e w)) ++ base.
Proof.
  induction cs as [|c cs IH]; intros e w H; cbn [calls]; [exact H|].
  pose proof (call_held base c e w H) as Hc.
  destruct (call c e w) as [e' w']. apply IH. exact Hc.
Qed.

(** X1.  Resources over a whole session.  After a successful construction and
    any sequence of [encodeFrame] and [finalize] calls, throwing ones
    included, the encoder holds exactly its own resources (at most one
    conversion context among them) on top of what was held before it was
    constructed, and the destructor gives all of them back. *)
Theorem encoder_session_holds_and_returns_its_resources :
  forall env width height fps_milli bitrate w0 e0 w1 cs,
    VideoEncoder_new env width height fps_milli bitrate w0 = (Ok e0, w1) ->
    let '(e, w) := calls cs e0 w1 in
    live w = owned e ++ live w0
    /\ live (VideoEncoder_delete e w) = live w0.
Proof.
  intros env width height fps_milli bitrate w0 e0 w1 cs Hnew.
  destruct (VideoEncoder_new_state _ _ _ _ _ _ _ _ Hnew) as (_ & _ & _ & _ & Hl & _).
  pose proof (calls_held (live w0) cs e0 w1 Hl) as Hc.
  destruct (calls cs e0 w1) as [e w]. cbn [fst snd] in Hc.
  split; [exact Hc|].
  unfold VideoEncoder_delete.
  pose proof (finalize_object e w) as Hf.
  destruct (finalize e w) as [e' w'].
  destruct Hf as (Hs & Hfm & _ & _ & Hlf & _).
  rewrite Hs, Hfm.
  assert (Hw' : live w' = owned e ++ live w0) by congruence.
  unfold owned in Hw'.
  destruct (m_sws_context e), (AVFMT_NOFILE (m_format_context e));
    cbn in *; rewrite Hw'; reflexivity.
Qed.

Lemma encoder_session_holds_and_returns_its_resources_witness :
  let '(e, w) := calls [CallEncodeFrame 32 24; CallFinalize; CallEncodeFrame 64 48]
                       encoder_64x48 world_64x48 in
  live w = owned e ++ live fresh_world
  /\ live (VideoEncoder_delete e w) = live fresh_world.
Proof.
  apply (encoder_session_holds_and_returns_its_resources
           all_ok 64 48 25000 400000 fresh_world encoder_64x48 world_64x48
           [CallEncodeFrame 32 24; CallFinalize; CallEncodeFrame 64 48]).
  vm_compute. reflexivity.
Defined.

Lemma flush_loop_mux n :
  forall w, (List.length (recv_script w) < n)%nat ->
    mux_calls (flush_loop n w)
    = mux_calls w ++ repeat WriteFrame (flushed_packets (recv_script w)).
Proof.
  induction n as [|n IH]; intros w Hn; [lia|]. cbn [flush_loop].
  unfold avcodec_receive_packet.
  destruct (recv_script w) as [|ret rest] eqn:Er; cbn [flushed_packets].
  - destruct (draining w); cbn; rewrite app_nil_r; reflexivity.
  - destruct ((ret =? AVERROR_EOF) || (ret =? AVERROR EAGAIN)).
    + cbn. rewrite app_nil_r. reflexivity.
    + rewrite IH by (cbn in *; lia). cbn. rewrite <- app_assoc. reflexivity.
Qed.

(** X5.  Order of the muxer calls of [finalize].  On an encoder not yet
    finalized, [finalize] hands the muxer one packet for every code the
    encoder returns before its first [AVERROR_EOF] or [AVERROR(EAGAIN)],
    error codes included, and then writes the trailer, last. *)
Theorem finalize_writes_pending_packets_then_trailer :
  forall e w,
    m_finalized e = false ->
    mux_calls (snd (finalize e w))
    = mux_calls w
      ++ repeat WriteFrame (flushed_packets (recv_script w))
      ++ [WriteTrailer].
Proof.
  intros e w Hf. unfold finalize. rewrite Hf. cbn [negb].
  pose proof (send_frame_frame true w) as Hs.
  destruct (avcodec_send_frame true w) as [ret w1]. cbn [snd] in *.
  destruct Hs as [Hm Hr].
  unfold av_write_trailer, mux. cbn [mux_calls set_mux_calls].
  rewrite flush_loop_mux by lia. rewrite Hm, Hr, <- app_assoc. reflexivity.
Qed.

Lemma finalize_writes_pending_packets_then_trailer_witness :
  mux_calls (snd (finalize encoder_64x48
                    (set_recv_script [0; -5; 0; AVERROR_EOF; 0] world_64x48)))
  = [WriteHeader; WriteFrame; WriteFrame; WriteFrame; WriteTrailer].
Proof.
  rewrite (finalize_writes_pending_packets_then_trailer encoder_64x48
             (set_recv_script [0; -5; 0; AVERROR_EOF; 0] world_64x48) eq_refl).
  vm_compute. reflexivity.
Defined.

(** X6.  Outcomes of the public [encodeFrame].  Whatever the library answers,
    the call hands the muxer packets only (never a header or a trailer),
    and it throws one of three messages.  A failure to create the
    conversion context leaves the frame counter, the muxer and the
    converter untouched and the context pointer null; a failure of the
    encoder is thrown after the frame was numbered, so the counter has
    advanced as it does on success. *)
Theorem encodeFrame_outcomes :
  forall width height e w,
    let '(o, e', w') := encodeFrame width height e w in
    (exists k, mux_calls w' = mux_calls w ++ repeat WriteFrame k)
    /\ match o with
       | Ok _ => m_pts e' = wrap64 (m_pts e + 1)
       | Throw msg =>
           (msg = "Failed to create scaling context"
            /\ m_pts e' = m_pts e /\ m_sws_context e' = None
            /\ mux_calls w' = mux_calls w /\ scale_calls w' = scale_calls w)
           \/ ((msg = "Error sending frame to encoder"
                \/ msg = "Error receiving packet from encoder")
               /\ m_pts e' = wrap64 (m_pts e + 1))
       end.
Proof.
  intros width height e w.
  assert (Hfree : mux_calls (sws_freeContext (m_sws_context e) w) = mux_calls w
                  /\ scale_calls (sws_freeContext (m_sws_context e) w) = scale_calls w).
  { unfold sws_freeContext. destruct (m_sws_context e); auto. }
  destruct Hfree as [Hfm Hfs].
  destruct (encodeFrame_cases width height e w)
    as [(_ & _ & ->)|[(_ & _ & ->)|(c0 & _ & _ & _ & ->)]].
  - split.
    + exists 0%nat. cbn. rewrite app_nil_r. exact Hfm.
    + left. cbn. auto.
  - match goal with |- context [encodeFrame_AVFrame ?a ?b] =>
      pose proof (encodeFrame_AVFrame_object a b) as Ho;
      pose proof (encodeFrame_AVFrame_only a b) as Hw;
      pose proof (encodeFrame_AVFrame_outcome a b) as Hout;
      destruct (encodeFrame_AVFrame a b) as [[o e'] w'] end.
    cbn [fst snd] in *. destruct Ho as (_ & _ & _ & _ & _ & _ & Hp).
    destruct Hw as (_ & _ & _ & _ & k & Hk).
    split; [exists k; rewrite Hk; cbn; rewrite Hfm; reflexivity|].
    destruct o; [exact Hp|]. right. auto.
  - match goal with |- context [encodeFrame_AVFrame ?a ?b] =>
      pose proof (encodeFrame_AVFrame_object a b) as Ho;
      pose proof (encodeFrame_AVFrame_only a b) as Hw;
      pose proof (encodeFrame_AVFrame_outcome a b) as Hout;
      destruct (encodeFrame_AVFrame a b) as [[o e'] w'] end.
    cbn [fst snd] in *. destruct Ho as (_ & _ & _ & _ & _ & _ & Hp).
    destruct Hw as (_ & _ & _ & _ & k & Hk).
    split; [exists k; rewrite Hk; reflexivity|].
    destruct o; [exact Hp|]. right. auto.
Qed.

Lemma sws_freeContext_logs c w :
  scale_calls (sws_freeContext c w) = scale_calls w
  /\ sws_created (sws_freeContext c w) = sws_created w.
Proof. destruct c; split; reflexivity. Qed.

Lemma call_converting width height pixfmt calls0 c e w :
  converting width height pixfmt calls0 e w ->
  converting width height pixfmt calls0 (fst (call c e w)) (snd (call c e w)).
Proof.
  intros [Hw Hh Hp Hctx (new & Hnew & Hall)].
  destruct c as [wd ht|]; cbn [call].
  - destruct (sws_freeContext_logs (m_sws_context e) w) as [Hfs _].
    destruct (encodeFrame_cases wd ht e w)
      as [(_ & _ & ->)|[(_ & _ & ->)|(c0 & Hc0 & Hwd & Hht & ->)]].
    + cbn [fst snd]. split; auto; cbn.
      * discriminate.
      * exists new. rewrite Hfs. auto.
    + match goal with |- context [encodeFrame_AVFrame ?a ?b] =>
        pose proof (encodeFrame_AVFrame_object a b) as Ho;
        pose proof (encodeFrame_AVFrame_only a b) as Hwo;
        destruct (encodeFrame_AVFrame a b) as [[o e'] w'] end.
      cbn [fst snd] in *.
      destruct Ho as (Hs & _ & Hcd & Hfw & Hfh & _), Hwo as (_ & Hsc & _).
      cbn in Hs, Hcd, Hfw, Hfh.
      split; try congruence.
      * intros c. rewrite Hs. intros H; injection H as <-.
        unfold context_for. cbn. auto.
      * exists (new ++ [mkScale (context_for wd ht e) (3 * wd) ht]).
        rewrite Hsc. cbn -[Z.mul]. rewrite Hfs, Hnew, app_assoc. split; [reflexivity|].
        apply Forall_app. split; [exact Hall|]. constructor; [|constructor].
        unfold conversion_fits, context_for. cbn -[Z.mul]. tauto.
    + match goal with |- context [encodeFrame_AVFrame ?a ?b] =>
        pose proof (encodeFrame_AVFrame_object a b) as Ho;
        pose proof (encodeFrame_AVFrame_only a b) as Hwo;
        destruct (encodeFrame_AVFrame a b) as [[o e'] w'] end.
      cbn [fst snd] in *.
      destruct Ho as (Hs & _ & Hcd & Hfw & Hfh & _), Hwo as (_ & Hsc & _).
      split; try congruence.
      * intros c. rewrite Hs. apply Hctx.
      * exists (new ++ [mkScale c0 (3 * wd) ht]).
        rewrite Hsc. cbn -[Z.mul]. rewrite Hnew, app_assoc. split; [reflexivity|].
        apply Forall_app. split; [exact Hall|]. constructor; [|constructor].
        destruct (Hctx c0 Hc0) as (H1 & H2 & H3 & H4).
        unfold conversion_fits. cbn -[Z.mul]. repeat split; auto. right. split; lia.
  - pose proof (finalize_object e w) as Hf.
    destruct (finalize e w) as [e' w']. cbn [fst snd].
    destruct Hf as (Hs & _ & Hcd & Hfr & _ & Hsc & _).
    split; try congruence.
    + intros c. rewrite Hs. apply Hctx.
    + exists new. rewrite Hsc. auto.
Qed.

Lemma calls_converting width height pixfmt calls0 cs :
  forall e w,
    converting width height pixfmt calls0 e w ->
    converting width height pixfmt calls0 (fst (calls cs e w)) (snd (calls cs e w)).
Proof.
  induction cs as [|c cs IH]; intros e w H; cbn [calls]; [exact H|].
  pose proof (call_converting _ _ _ _ c e w H) as Hc.
  destruct (call c e w) as [e' w']. apply IH. exact Hc.
Qed.

(** X4.  Every conversion of a session.  On an encoder constructed for
    [width] x [height], every [sws_scale] call runs on a context that
    converts RGB24 into the encoder's geometry and pixel format, and the
    buffer passed to it has the geometry that context was created for,
    unless the input has the geometry of the output: only then can the
    context predate the input geometry. *)
Theorem encoder_conversions_fit_unless_input_matches_output :
  forall env width height fps_milli bitrate w0 e0 w1 cs,
    VideoEncoder_new env width height fps_milli bitrate w0 = (Ok e0, w1) ->
    exists new,
      scale_calls (snd (calls cs e0 w1)) = scale_calls w0 ++ new
      /\ Forall (conversion_fits width height AV_PIX_FMT_YUV420P) new.
Proof.
  intros env width height fps_milli bitrate w0 e0 w1 cs Hnew.
  destruct (VideoEncoder_new_state _ _ _ _ _ _ _ _ Hnew)
    as (Hs & Hw & Hh & Hp & _ & Hsc & _).
  assert (H0 : converting width height AV_PIX_FMT_YUV420P (scale_calls w0) e0 w1).
  { split; auto.
    - intros c. rewrite Hs. discriminate.
    - exists []. rewrite app_nil_r. auto. }
  destruct (calls_converting _ _ _ _ cs e0 w1 H0) as [_ _ _ _ Hc]. exact Hc.
Qed.

Lemma encoder_conversions_fit_unless_input_matches_output_witness :
  exists new,
    scale_calls (snd (calls [CallEncodeFrame 32 24; CallEncodeFrame 64 48]
                            encoder_64x48 world_64x48))
    = scale_calls fresh_world ++ new
    /\ Forall (conversion_fits 64 48 AV_PIX_FMT_YUV420P) new.
Proof.
  apply (encoder_conversions_fit_unless_input_matches_output
           all_ok 64 48 25000 400000 fresh_world encoder_64x48 world_64x48).
  vm_compute. reflexivity.
Defined.

Lemma call_steady width height created0 calls0 c e w :
  frame_width (m_frame e) = width -> frame_height (m_frame e) = height ->
  feeds width height c ->
  steady (context_for width height e)
         (mkScale (context_for width height e) (3 * width) height)
         created0 calls0 e w ->
  let e' := fst (call c e w) in
  frame_width (m_frame e') = width /\ frame_height (m_frame e') = height
  /\ context_for width height e' = context_for width height e
  /\ steady (context_for width height e)
            (mkScale (context_for width height e) (3 * width) height)
            created0 calls0 e' (snd (call c e w)).
Proof.
  intros Hw Hh Hfeed [Hctx (new & Hnew & Hall)]. cbv zeta.
  destruct c as [wd ht|]; cbn [call feeds] in *.
  - destruct Hfeed as [-> ->].
    destruct (sws_freeContext_logs (m_sws_context e) w) as [Hfs Hfc].
    destruct (encodeFrame_cases width height e w)
      as [(_ & Hwhy & ->)|[(_ & Hwhy & ->)|(c0 & Hc0 & _ & _ & ->)]].
    + cbn [fst snd]. repeat split; auto.
      * left. split; [reflexivity|]. cbn.
        destruct Hwhy as [Hn|[Hn|Hn]]; try congruence.
        destruct Hctx as [[_ Hc]|[Hc _]]; congruence.
      * exists new. cbn. rewrite Hfs. auto.
    + assert (Hnone : m_sws_context e = None)
        by (destruct Hwhy as [Hn|[Hn|Hn]]; congruence).
      assert (Hcr : sws_created w = created0)
        by (destruct Hctx as [[_ Hc]|[Hc _]]; congruence).
      match goal with |- context [encodeFrame_AVFrame ?a ?b] =>
        pose proof (encodeFrame_AVFrame_object a b) as Ho;
        pose proof (encodeFrame_AVFrame_only a b) as Hwo;
        destruct (encodeFrame_AVFrame a b) as [[o e'] w'] end.
      cbn [fst snd] in *.
      destruct Ho as (Hs & _ & Hcd & Hfw & Hfh & _), Hwo as (_ & Hsc & Hcre & _).
      cbn in Hs, Hcd, Hfw, Hfh.
      split; [congruence|]. split; [congruence|].
      split; [unfold context_for; congruence|]. split.
      * right. split; [exact Hs|]. rewrite Hcre. cbn. rewrite Hfc, Hcr. reflexivity.
      * exists (new ++ [mkScale (context_for width height e) (3 * width) height]).
        rewrite Hsc. cbn -[Z.mul]. rewrite Hfs, Hnew, app_assoc.
        split; [reflexivity|]. apply Forall_app. split; [exact Hall|].
        constructor; [reflexivity|constructor].
    + assert (Hc : c0 = context_for width height e)
        by (destruct Hctx as [[Hc _]|[Hc _]]; congruence).
      subst c0.
      match goal with |- context [encodeFrame_AVFrame ?a ?b] =>
        pose proof (encodeFrame_AVFrame_object a b) as Ho;
        pose proof (encodeFrame_AVFrame_only a b) as Hwo;
        destruct (encodeFrame_AVFrame a b) as [[o e'] w'] end.
      cbn [fst snd] in *.
      destruct Ho as (Hs & _ & Hcd & Hfw & Hfh & _), Hwo as (_ & Hsc & Hcre & _).
      split; [congruence|]. split; [congruence|].
      split; [unfold context_for; congruence|]. split.
      * destruct Hctx as [[Hn _]|[_ Hcr]]; [congruence|].
        right. split; [congruence|]. rewrite Hcre. exact Hcr.
      * exists (new ++ [mkScale (context_for width height e) (3 * width) height]).
        rewrite Hsc. cbn -[Z.mul]. rewrite Hnew, app_assoc.
        split; [reflexivity|]. apply Forall_app. split; [exact Hall|].
        constructor; [reflexivity|constructor].
  - pose proof (finalize_object e w) as Hf.
    destruct (finalize e w) as [e' w']. cbn [fst snd].
    destruct Hf as (Hs & _ & Hcd & Hfr & _ & Hsc & Hcre).
    split; [congruence|]. split; [congruence|].
    split; [unfold context_for; congruence|]. split.
    + rewrite Hs, Hcre. exact Hctx.
    + exists new. rewrite Hsc. auto.
Qed.

Lemma calls_steady width height created0 calls0 cs :
  forall e w,
    frame_width (m_frame e) = width -> frame_height (m_frame e) = height ->
    Forall (feeds width height) cs ->
    steady (context_for width height e)
           (mkScale (context_for width height e) (3 * width) height)
           created0 calls0 e w ->
    steady (context_for width height e)
           (mkScale (context_for width height e) (3 * width) height)
           created0 calls0 (fst (calls cs e w)) (snd (calls cs e w)).
Proof.
  induction cs as [|c cs IH]; intros e w Hw Hh Hall Hst; cbn [calls]; [exact Hst|].
  apply Forall_cons_iff in Hall. destruct Hall as [Hc Hcs].
  pose proof (call_steady width height created0 calls0 c e w Hw Hh Hc Hst) as Hstep.
  cbv zeta in Hstep. destruct (call c e w) as [e' w']. cbn [fst snd] in Hstep.
  destruct Hstep as (Hw' & Hh' & Hcf & Hst').
  rewrite <- Hcf in *. apply IH; assumption.
Qed.

(** X3.  The fixed-resolution session.  When every frame fed to an encoder has
    the geometry the encoder was constructed for, the whole session creates
    at most one conversion context, the one from that geometry to itself,
    and every conversion runs on it with the stride and height of that
    geometry, however often [encodeFrame] throws in between. *)
Theorem fixed_resolution_session_creates_one_context :
  forall env width height fps_milli bitrate w0 e0 w1 cs,
    VideoEncoder_new env width height fps_milli bitrate w0 = (Ok e0, w1) ->
    Forall (feeds width height) cs ->
    let c0 := mkSws width height AV_PIX_FMT_RGB24 width height AV_PIX_FMT_YUV420P in
    let w := snd (calls cs e0 w1) in
    (sws_created w = sws_created w0 \/ sws_created w = sws_created w0 ++ [c0])
    /\ exists new,
         scale_calls w = scale_calls w0 ++ new
         /\ Forall (eq (mkScale c0 (3 * width) height)) new.
Proof.
  intros env width height fps_milli bitrate w0 e0 w1 cs Hnew Hfeeds c0 w.
  destruct (VideoEncoder_new_state _ _ _ _ _ _ _ _ Hnew)
    as (Hs & Hw & Hh & Hp & _ & Hsc & Hcr).
  assert (Hc0 : context_for width height e0 = c0).
  { unfold context_for, c0. rewrite Hw, Hh, Hp. reflexivity. }
  assert (H0 : steady (context_for width height e0)
                      (mkScale (context_for width height e0) (3 * width) height)
                      (sws_created w0) (scale_calls w0) e0 w1).
  { split.
    - left. auto.
    - exists []. rewrite app_nil_r. auto. }
  pose proof (calls_steady width height _ _ cs e0 w1 Hw Hh Hfeeds H0) as Hst.
  rewrite Hc0 in Hst. destruct Hst as [Hctx Hcalls]. fold w in Hctx, Hcalls.
  split; [|exact Hcalls]. destruct Hctx as [[_ H]|[_ H]]; auto.
Qed.

Lemma fixed_resolution_session_creates_one_context_witness :
  let c0 := mkSws 64 48 AV_PIX_FMT_RGB24 64 48 AV_PIX_FMT_YUV420P in
  let w := snd (calls [CallEncodeFrame 64 48; CallEncodeFrame 64 48; CallFinalize]
                      encoder_64x48
                      (set_sws_script [false] world_64x48)) in
  (sws_created w = [] \/ sws_created w = [] ++ [c0])
  /\ exists new,
       scale_calls w = [] ++ new
       /\ Forall (eq (mkScale c0 (3 * 64) 48)) new.
Proof.
  apply (fixed_resolution_session_creates_one_context
           all_ok 64 48 25000 400000
           (set_sws_script [false] fresh_world) encoder_64x48
           (set_sws_script [false] world_64x48)
           [CallEncodeFrame 64 48; CallEncodeFrame 64 48; CallFinalize]).
  - vm_compute. reflexivity.
  - repeat constructor.
Defined.

Lemma round_div_multiple i k c : 0 < c -> round_div i (k * c) c = i * k.
Proof.
  intros Hc. unfold round_div.
  replace (i * (k * c) + c / 2) with ((i * k) * c + c / 2) by ring.
  rewrite Z.div_add_l by lia.
  rewrite (Z.div_small (c / 2) c); [lia|].
  split; [apply Z.div_pos; lia|apply Z.div_lt; lia].
Qed.

(** X7.  Timestamps when the time bases are commensurate.  If one tick of the
    encoder is a whole number [k] of stream ticks, the [i]-th frame
    submitted is stamped exactly [k * i]; in particular a muxer that keeps
    the encoder's time base gets the frame numbers 0, 1, 2, ... *)
Theorem timestamps_are_frame_numbers_scaled :
  forall (e : VideoEncoder) (w : World) (n : nat) (k : Z),
    let cb := time_base (m_codec_context e) in
    let sb := stream_time_base (m_stream e) in
    m_pts e = 0 ->
    0 < num cb -> 0 < den cb -> 0 < num sb -> 0 < den sb ->
    num cb * den sb = k * (num sb * den cb) ->
    Z.of_nat n * (num cb * den sb) + num sb * den cb <= INT64_MAX ->
    forall i, (i < n)%nat -> nth i (submitted_pts n e w) 0 = k * Z.of_nat i.
Proof.
  intros e w n k cb sb Hp Hcn Hcd Hsn Hsd Hk Hfit i Hi.
  assert (Hb : 1 <= num cb * den sb) by nia.
  assert (Hc : 1 <= num sb * den cb) by nia.
  rewrite submitted_pts_map by nia.
  rewrite nth_map_seq by exact Hi. rewrite Hp. cbn [Z.add].
  fold cb sb. rewrite av_rescale_q_counter; try lia.
  - rewrite Hk, round_div_multiple by lia. ring.
  - apply Z.le_trans with (2 := Hfit).
    apply Z.add_le_mono_r, Z.mul_le_mono_nonneg_r; lia.
Qed.

Lemma timestamps_are_frame_numbers_scaled_witness :
  nth 3 (submitted_pts 5 encoder_64x48 world_64x48) 0 = 1 * Z.of_nat 3.
Proof.
  apply (timestamps_are_frame_numbers_scaled encoder_64x48 world_64x48 5 1);
    try (vm_compute; first [reflexivity | discriminate]).
  repeat constructor.
Defined.

End EncoderSession.

(** ** VideoDecoder: sessions, stream selection and seeking *)

Section DecoderSession.
Import Decoder Scenario.

Lemma seek_loop_process n t :
  forall p d,
    let '(_, p', d') := seek_loop n t p d in
    p' = set_hasPendingFrames (hasPendingFrames p') p /\ turn_keeps d d'.
Proof.
  induction n as [|n IH]; intros p d; cbn [seek_loop].
  - split; [destruct p; reflexivity|apply turn_keeps_refl].
  - pose proof (getNextFrame_AVFrame_effect p d) as He.
    destruct (getNextFrame_AVFrame p d) as [[got p1] d1].
    destruct He as (K & Hp & _).
    destruct got; [|auto]. case_if; [auto|].
    specialize (IH p1 d1). destruct (seek_loop n t p1 d1) as [[r p2] d2].
    destruct IH as [Hp2 K2]. split.
    + rewrite Hp2, Hp. reflexivity.
    + eapply turn_keeps_trans; eassumption.
Qed.

Lemma call_live c p d : live (fst (call c p d)) = live p.
Proof.
  destruct c as [want|t]; cbn [call].
  - unfold getNextFrame.
    pose proof (getNextFrame_AVFrame_effect p d) as He.
    destruct (getNextFrame_AVFrame p d) as [[got p1] d1].
    destruct He as (_ & Hp & _).
    destruct got; cbn [fst]; [|rewrite Hp; reflexivity].
    unfold convertAVFrameToRGBBuffer.
    destruct (hd true (sws_script p1)); cbn; rewrite Hp; reflexivity.
  - unfold seekToTimestamp.
    destruct (av_seek_frame _ (avcodec_flush_buffers d)) as [ret d0].
    case_if; [reflexivity|].
    match goal with |- context [seek_loop ?n ?t ?p ?d] =>
      pose proof (seek_loop_process n t p d) as Hs;
      destruct (seek_loop n t p d) as [[r p'] d'] end.
    destruct Hs as [Hp _]. cbn [fst]. rewrite Hp. reflexivity.
Qed.

Lemma calls_live cs : forall p d, live (fst (calls cs p d)) = live p.
Proof.
  induction cs as [|c cs IH]; intros p d; cbn [calls]; [reflexivity|].
  pose proof (call_live c p d) as Hc.
  destruct (call c p d) as [p' d']. cbn [fst] in Hc. rewrite IH. exact Hc.
Qed.

(** What a successful construction leaves. *)
Lemma VideoDecoder_new_state env p d p' :
  VideoDecoder_new env p = (Ok d, p') ->
  exists fmt,
    open_input env = Some fmt
    /\ m_format_context d = fmt
    /\ m_video_stream_index d = find_video_stream (streams fmt) 0 (-1)
    /\ m_video_stream_index d <> -1
    /\ live p' = [RFrame; RPacket; RCodecContext; RFormatContext] ++ live p
    /\ getWidth d = par_width (getStream d)
    /\ getHeight d = par_height (getStream d).
Proof.
  unfold VideoDecoder_new. destruct (open_input env) as [fmt|]; [|discriminate].
  case_if; [discriminate|].
  destruct (find_video_stream (streams fmt) 0 (-1) =? -1) eqn:Ei; [discriminate|].
  apply Z.eqb_neq in Ei.
  case_if; [discriminate|].
  destruct (alloc_context env) as [ctx|]; [|discriminate].
  repeat case_if; try discriminate.
  intros H; inversion H; subst; clear H. exists fmt. cbn. repeat split; auto.
Qed.

(** X2.  Resources over a whole decoding session.  After a successful
    construction the process holds the decoder's four resources; no
    [getNextFrame] or [seekToTimestamp] call changes what is held, whether
    it returns or throws (the conversion context of a call is freed before
    the call ends); and the destructor gives the four back. *)
Theorem decoder_session_holds_and_returns_its_resources :
  forall env p0 d0 p1 cs,
    VideoDecoder_new env p0 = (Ok d0, p1) ->
    let p := fst (calls cs p1 d0) in
    live p = [RFrame; RPacket; RCodecContext; RFormatContext] ++ live p0
    /\ live (VideoDecoder_delete p) = live p0.
Proof.
  intros env p0 d0 p1 cs Hnew p.
  destruct (VideoDecoder_new_state _ _ _ _ Hnew) as (fmt & _ & _ & _ & _ & Hl & _).
  assert (Hp : live p = [RFrame; RPacket; RCodecContext; RFormatContext] ++ live p0).
  { unfold p. rewrite calls_live. exact Hl. }
  split; [exact Hp|].
  unfold VideoDecoder_delete. cbn. rewrite Hp. reflexivity.
Qed.

Lemma decoder_session_holds_and_returns_its_resources_witness :
  let p := fst (calls [CallGetNextFrame true; CallSeekToTimestamp 40000;
                       CallGetNextFrame false]
                      (acquire_in RFrame
                         (acquire_in RPacket
                            (acquire_in RCodecContext
                               (acquire_in RFormatContext no_sws_memory))))
                      (Decoder.mkDecoder
                         (Decoder.mkFormat [microsecond_stream]
                                           [(0, 0); (0, 0); (0, 0)] [] [])
                         (Decoder.mkCodec 64 48 false [] [(0, picture 0)])
                         0 (Decoder.mkPacket 0) Decoder.no_frame)) in
  live p = [RFrame; RPacket; RCodecContext; RFormatContext] ++ live no_sws_memory
  /\ live (VideoDecoder_delete p) = live no_sws_memory.
Proof.
  apply (decoder_session_holds_and_returns_its_resources opens_video no_sws_memory).
  vm_compute. reflexivity.
Defined.

Lemma find_video_stream_position ss :
  forall i found,
    let r := find_video_stream ss i found in
    (r = found /\ Forall (fun s => is_video s = false) ss)
    \/ (i <= r /\ (Z.to_nat (r - i) < List.length ss)%nat
        /\ is_video (nth (Z.to_nat (r - i)) ss no_stream) = true
        /\ Forall (fun s => is_video s = false) (skipn (S (Z.to_nat (r - i))) ss)).
Proof.
  induction ss as [|s rest IH]; intros i found; cbn [find_video_stream].
  - left. auto.
  - specialize (IH (i + 1) (if codec_type s =? AVMEDIA_TYPE_VIDEO then i else found)).
    cbv zeta in *.
    set (r := find_video_stream rest (i + 1) _) in *.
    destruct IH as [[Hr Hnone]|(Hle & Hlt & Hvid & Hafter)].
    + destruct (codec_type s =? AVMEDIA_TYPE_VIDEO) eqn:Ev.
      * right. rewrite Hr, Z.sub_diag. cbn. repeat split; auto; lia.
      * left. split; [exact Hr|]. constructor; [exact Ev|exact Hnone].
    + right.
      replace (Z.to_nat (r - i)) with (S (Z.to_nat (r - (i + 1)))) by lia.
      cbn [nth skipn List.length]. repeat split; auto; lia.
Qed.

(** X8.  Stream selection.  A constructed decoder reads the last stream of
    video type in the container: its index is in range, the stream there
    is a video stream, no later stream is, and [getBitrate], [getWidth]
    and [getHeight] report the bit rate and the dimensions declared for
    that stream. *)
Theorem decoder_selects_last_video_stream :
  forall env p d p',
    VideoDecoder_new env p = (Ok d, p') ->
    exists fmt,
      open_input env = Some fmt
      /\ m_format_context d = fmt
      /\ 0 <= m_video_stream_index d
      /\ (Z.to_nat (m_video_stream_index d) < List.length (streams fmt))%nat
      /\ is_video (getStream d) = true
      /\ Forall (fun s => is_video s = false)
                (skipn (S (Z.to_nat (m_video_stream_index d))) (streams fmt))
      /\ getBitrate d = bit_rate (getStream d)
      /\ getWidth d = par_width (getStream d)
      /\ getHeight d = par_height (getStream d).
Proof.
  intros env p d p' Hnew.
  destruct (VideoDecoder_new_state _ _ _ _ Hnew)
    as (fmt & Ho & Hf & Hi & Hne & _ & Hwd & Hht).
  exists fmt. split; [exact Ho|]. split; [exact Hf|].
  pose proof (find_video_stream_position (streams fmt) 0 (-1)) as Hpos.
  cbv zeta in Hpos. rewrite <- Hi in Hpos.
  destruct Hpos as [[Hr _]|(Hle & Hlt & Hvid & Hafter)]; [congruence|].
  rewrite Z.sub_0_r in *. rewrite Hwd, Hht.
  unfold getStream, getBitrate, stream_at. rewrite Hf. repeat split; auto.
Qed.

Lemma decoder_selects_last_video_stream_witness :
  match VideoDecoder_new two_video_streams initial_process with
  | (Ok d, _) =>
      (exists fmt,
          open_input two_video_streams = Some fmt
          /\ m_format_context d = fmt
          /\ 0 <= m_video_stream_index d
          /\ (Z.to_nat (m_video_stream_index d) < List.length (streams fmt))%nat
          /\ is_video (getStream d) = true
          /\ Forall (fun s => is_video s = false)
                    (skipn (S (Z.to_nat (m_video_stream_index d))) (streams fmt))
          /\ getBitrate d = bit_rate (getStream d)
          /\ getWidth d = par_width (getStream d)
          /\ getHeight d = par_height (getStream d))
      /\ m_video_stream_index d = 2
      /\ getBitrate d = 4000000
      /\ getWidth d = 720 /\ getHeight d = 576
  | (Throw _, _) => False
  end.
Proof.
  destruct (VideoDecoder_new two_video_streams initial_process) as [[d|msg] p'] eqn:E.
  - split; [exact (decoder_selects_last_video_stream _ _ _ _ E)|].
    vm_compute in E. injection E as <- <-. vm_compute. auto.
  - vm_compute in E. discriminate.
Defined.

Lemma iteration_foreign p d :
  only_foreign_packets d ->
  match iteration p d with
  | Return got p' d' =>
      got = false /\ hasPendingFrames p' = false
      /\ send_script (m_codec_context d') = send_script (m_codec_context d)
  | Continue p' d' =>
      only_foreign_packets d'
      /\ send_script (m_codec_context d') = send_script (m_codec_context d)
  end.
Proof.
  intros [Hrecv Hreads].
  destruct d as [[ss reads sks iss] [wd ht dr sends recvs] vidx pkt frm].
  cbn in Hrecv, Hreads. subst recvs.
  unfold iteration, read_packet, av_read_frame, avcodec_receive_frame.
  destruct (hasPendingFrames p); cbn.
  - destruct dr; cbn; [auto|]. split; [|reflexivity]. split; [reflexivity|exact Hreads].
  - destruct reads as [|[ret idx] rest]; cbn; [auto|].
    destruct (Hreads ret idx (or_introl eq_refl)) as [Hret Hidx].
    replace (ret =? AVERROR_EOF) with false
      by (symmetry; apply Z.eqb_neq; unfold AVERROR_EOF; lia).
    replace (ret <? 0) with false by (symmetry; apply Z.ltb_ge; lia).
    cbn. replace (idx =? vidx) with false
      by (symmetry; apply Z.eqb_neq; exact Hidx).
    cbn. destruct dr; cbn; [auto|]. split; [|reflexivity].
    split; [reflexivity|]. cbn. intros r i Hin. apply Hreads. right. exact Hin.
Qed.

Lemma getNextFrame_AVFrame_foreign p d :
  only_foreign_packets d ->
  let '(got, p', d') := getNextFrame_AVFrame p d in
  got = false /\ hasPendingFrames p' = false
  /\ send_script (m_codec_context d') = send_script (m_codec_context d).
Proof.
  remember (turns p d) as n eqn:En.
  revert p d En. induction n as [n IH] using lt_wf_ind. intros p d En Hf.
  rewrite getNextFrame_AVFrame_unfold.
  pose proof (iteration_foreign p d Hf) as Hi.
  destruct (iteration p d) as [got p' d'|p' d'] eqn:Ei; [exact Hi|].
  apply iteration_continue in Ei. destruct Ei as (Hlt & _ & _).
  destruct Hi as [Hf' Hs].
  specialize (IH (turns p' d') ltac:(lia) p' d' eq_refl Hf').
  destruct (getNextFrame_AVFrame p' d') as [[got p''] d''].
  destruct IH as (H1 & H2 & H3). repeat split; congruence.
Qed.

(** X9.  Packets of other streams.  When the decoder has nothing buffered and
    every packet left in the container belongs to another stream,
    [getNextFrame] reports "no frame" without an exception, submits none
    of those packets to the decoder, writes nothing into the caller's
    buffer, and leaves the pending flag clear. *)
Theorem foreign_packets_are_discarded :
  forall want_pts p d,
    only_foreign_packets d ->
    let '(o, p', d') := getNextFrame want_pts p d in
    o = Ok (false, None)
    /\ send_script (m_codec_context d') = send_script (m_codec_context d)
    /\ rgb_written p' = rgb_written p
    /\ hasPendingFrames p' = false.
Proof.
  intros want_pts p d Hf. unfold getNextFrame.
  pose proof (getNextFrame_AVFrame_foreign p d Hf) as Hg.
  pose proof (getNextFrame_AVFrame_effect p d) as He.
  destruct (getNextFrame_AVFrame p d) as [[got p1] d1].
  destruct Hg as (-> & Hflag & Hsend), He as (_ & Hp & _).
  repeat split; auto. rewrite Hp. reflexivity.
Qed.

Lemma foreign_packets_are_discarded_witness :
  let '(o, p', d') := getNextFrame true initial_process audio_packets_only in
  o = Ok (false, None)
  /\ send_script (m_codec_context d') = send_script (m_codec_context audio_packets_only)
  /\ rgb_written p' = rgb_written initial_process
  /\ hasPendingFrames p' = false.
Proof.
  apply (foreign_packets_are_discarded true initial_process audio_packets_only).
  split; [reflexivity|].
  intros ret idx Hin. vm_compute in Hin.
  destruct Hin as [H|[H|[]]]; injection H as <- <-; split; [lia|discriminate|lia|discriminate].
Defined.

(** What one turn takes from the drain script. *)
Lemma iteration_consumes p d :
  match iteration p d with
  | Continue _ d' =>
      recv_script (m_codec_context d) = recv_script (m_codec_context d')
      \/ exists pic,
           recv_script (m_codec_context d)
           = (AVERROR EAGAIN, pic) :: recv_script (m_codec_context d')
  | Return true _ d' =>
      exists ret, 0 <= ret
        /\ recv_script (m_codec_context d)
           = (ret, m_frame d') :: recv_script (m_codec_context d')
  | Return false _ _ => True
  end.
Proof.
  unfold iteration.
  pose proof (read_packet_keeps d) as Hk. cbv zeta in Hk.
  set (r := if negb (hasPendingFrames p) then read_packet d else (true, d)).
  assert (Kr : recv_script (m_codec_context (snd r)) = recv_script (m_codec_context d)).
  { unfold r. destruct (negb (hasPendingFrames p)); cbn [snd]; [tauto|auto]. }
  clear Hk. destruct r as [ok d0]. cbn [snd] in Kr.
  destruct ok; cbn [negb]; [|exact I].
  pose proof (receive_frame_cases d0) as Hr.
  destruct (avcodec_receive_frame d0) as [ret d1].
  destruct (ret =? AVERROR EAGAIN) eqn:Eag.
  { apply Z.eqb_eq in Eag.
    destruct Hr as [(Hnil & Hd & _)|(pic & Hs & _)].
    - left. subst d1. cbn. symmetry. exact Kr.
    - right. exists pic. rewrite <- Kr, Hs, Eag. reflexivity. }
  destruct (ret =? AVERROR_EOF) eqn:Eeof; [exact I|].
  destruct (ret <? 0) eqn:Eneg; [exact I|].
  apply Z.ltb_ge in Eneg. apply Z.eqb_neq in Eag, Eeof.
  destruct Hr as [(Hnil & Hd & Hret)|(pic & Hs & _ & _ & _ & _ & Hf)].
  - exfalso. destruct (draining (m_codec_context d0)); congruence.
  - exists ret. split; [exact Eneg|]. rewrite <- Kr, Hs, (Hf Eneg). reflexivity.
Qed.

Lemma getNextFrame_AVFrame_skips :
  forall p d p' d',
    getNextFrame_AVFrame p d = (true, p', d') ->
    exists pre ret,
      recv_script (m_codec_context d)
      = pre ++ (ret, m_frame d') :: recv_script (m_codec_context d')
      /\ 0 <= ret
      /\ Forall (fun x => fst x = AVERROR EAGAIN) pre.
Proof.
  intros p d. remember (turns p d) as n eqn:En.
  revert p d En. induction n as [n IH] using lt_wf_ind. intros p d En p' d'.
  rewrite getNextFrame_AVFrame_unfold.
  pose proof (iteration_consumes p d) as Hc.
  destruct (iteration p d) as [got p1 d1|p1 d1] eqn:Ei.
  - intros H; injection H as -> -> ->.
    destruct Hc as (ret & Hret & Hs). exists [], ret. cbn. auto.
  - apply iteration_continue in Ei. destruct Ei as (Hlt & _ & _).
    intros H.
    destruct (IH (turns p1 d1) ltac:(lia) p1 d1 eq_refl p' d' H)
      as (pre & ret & Hs & Hret & Hall).
    destruct Hc as [Hsame|(pic & Hcons)].
    + exists pre, ret. rewrite Hsame. auto.
    + exists ((AVERROR EAGAIN, pic) :: pre), ret. rewrite Hcons, Hs.
      repeat split; auto.
Qed.

(** X10.  No picture is dropped.  When [getNextFrame] delivers a picture, it is
    the first picture the decoder had to give: everything the call took
    from the decoder before it was a "not ready" answer. *)
Theorem getNextFrame_delivers_the_next_picture :
  forall p d p' d',
    getNextFrame_AVFrame p d = (true, p', d') ->
    exists pre ret,
      recv_script (m_codec_context d)
      = pre ++ (ret, m_frame d') :: recv_script (m_codec_context d')
      /\ 0 <= ret
      /\ Forall (fun x => fst x = AVERROR EAGAIN) pre.
Proof. exact getNextFrame_AVFrame_skips. Qed.

Lemma getNextFrame_delivers_the_next_picture_witness :
  exists pre ret,
    recv_script (m_codec_context second_file)
    = pre ++ (ret, picture 0) :: []
    /\ 0 <= ret
    /\ Forall (fun x => fst x = AVERROR EAGAIN) pre.
Proof.
  apply (getNextFrame_delivers_the_next_picture
           (set_hasPendingFrames true initial_process) second_file
           (set_hasPendingFrames true initial_process)
           (mkDecoder (mkFormat [microsecond_stream] [] [] [])
                      (mkCodec 64 48 false [] [])
                      0 (mkPacket 0) (picture 0))).
  vm_compute. reflexivity.
Defined.

Lemma seek_loop_first n t :
  forall p d p' d',
    seek_loop n t p d = (true, p', d') ->
    exists pre ret,
      recv_script (m_codec_context d)
      = pre ++ (ret, m_frame d') :: recv_script (m_codec_context d')
      /\ 0 <= ret
      /\ t <= getBestEffortTimestampInMicroseconds (m_frame d') (getStream d)
      /\ Forall (passed_over t (getStream d)) pre.
Proof.
  induction n as [|n IH]; intros p d p' d'; cbn [seek_loop]; [discriminate|].
  pose proof (getNextFrame_AVFrame_effect p d) as He.
  pose proof (getNextFrame_AVFrame_skips p d) as Hn.
  destruct (getNextFrame_AVFrame p d) as [[got p1] d1].
  destruct He as (K & _ & _). pose proof (turn_keeps_stream _ _ K) as Hst.
  destruct got; [|discriminate].
  destruct (Hn p1 d1 eq_refl) as (pre1 & ret1 & Hs1 & Hret1 & Hall1).
  assert (Hpre1 : Forall (passed_over t (getStream d)) pre1).
  { eapply Forall_impl; [|exact Hall1]. intros x Hx. left. exact Hx. }
  destruct (t <=? getBestEffortTimestampInMicroseconds (m_frame d1) (getStream d1)) eqn:Et.
  - intros H; injection H as <- <-. apply Z.leb_le in Et. rewrite Hst in Et.
    exists pre1, ret1. auto.
  - intros H. apply Z.leb_gt in Et. rewrite Hst in Et.
    destruct (IH _ _ _ _ H) as (pre2 & ret2 & Hs2 & Hret2 & Ht2 & Hall2).
    rewrite Hst in Ht2, Hall2.
    exists (pre1 ++ (ret1, m_frame d1) :: pre2), ret2.
    rewrite Hs1, Hs2, <- app_assoc. cbn [app]. repeat split; auto.
    apply Forall_app. split; [exact Hpre1|]. constructor; [|exact Hall2].
    right. cbn. auto.
Qed.

(** X11.  The picture a seek stops on.  When [seekToTimestamp t] returns [true]
    it has stopped on the first picture at or after [t] that the decoder
    gave: that picture is in [m_frame], and every picture the seek decoded
    before it lies before [t]. *)
Theorem seek_stops_on_the_first_picture_reaching_target :
  forall t p d p' d',
    seekToTimestamp t p d = (true, p', d') ->
    exists pre ret,
      recv_script (m_codec_context d)
      = pre ++ (ret, m_frame d') :: recv_script (m_codec_context d')
      /\ 0 <= ret
      /\ t <= getBestEffortTimestampInMicroseconds (m_frame d') (getStream d)
      /\ Forall (passed_over t (getStream d)) pre.
Proof.
  intros t p d p' d'. unfold seekToTimestamp.
  set (tb := av_rescale_q t AV_TIME_BASE_Q (time_base (getStream d))).
  pose proof (seek_prepare_keeps tb d) as Hk. cbv zeta in Hk.
  destruct (av_seek_frame tb (avcodec_flush_buffers d)) as [ret d0].
  cbn [snd] in Hk. destruct Hk as (Hr & _ & Hs).
  case_if; [discriminate|].
  intros H. apply seek_loop_first in H. rewrite Hr, Hs in H. exact H.
Qed.

Lemma seek_stops_on_the_first_picture_reaching_target_witness :
  exists pre ret,
    recv_script (m_codec_context three_pictures)
    = pre ++ (ret, picture 40000) :: [(AVERROR EAGAIN, no_frame); (0, picture 80000)]
    /\ 0 <= ret
    /\ 30000 <= getBestEffortTimestampInMicroseconds (picture 40000)
                  (getStream three_pictures)
    /\ Forall (passed_over 30000 (getStream three_pictures)) pre.
Proof.
  apply (seek_stops_on_the_first_picture_reaching_target
           30000 initial_process three_pictures
           (set_hasPendingFrames true initial_process)
           (mkDecoder (mkFormat [microsecond_stream] [(0, 0)] [] [30000])
                      (mkCodec 64 48 false []
                               [(AVERROR EAGAIN, no_frame); (0, picture 80000)])
                      0 (mkPacket 0) (picture 40000))).
  vm_compute. reflexivity.
Defined.

(** X12.  Several pictures from one packet.  After a call that delivered a
    picture, if the decoder has another picture ready, the next call
    delivers it at once: it reads no packet from the container and submits
    nothing to the decoder. *)
Theorem pending_picture_is_delivered_without_reading :
  forall p d p1 d1 ret pic rest,
    getNextFrame_AVFrame p d = (true, p1, d1) ->
    recv_script (m_codec_context d1) = (ret, pic) :: rest ->
    0 <= ret ->
    getNextFrame_AVFrame p1 d1
    = (true, p1, set_frame pic (set_codec (set_recv_script rest (m_codec_context d1)) d1)).
Proof.
  intros p d p1 d1 ret pic rest Hcall Hrecv Hret.
  pose proof (getNextFrame_AVFrame_effect p d) as He. rewrite Hcall in He.
  destruct He as (_ & _ & Hd). destruct (Hd eq_refl) as (_ & Hflag & _).
  rewrite getNextFrame_AVFrame_unfold. unfold iteration.
  rewrite Hflag. cbn [negb]. unfold avcodec_receive_frame. rewrite Hrecv.
  replace (ret =? AVERROR EAGAIN) with false
    by (symmetry; apply Z.eqb_neq; unfold AVERROR, EAGAIN; lia).
  replace (ret =? AVERROR_EOF) with false
    by (symmetry; apply Z.eqb_neq; unfold AVERROR_EOF; lia).
  replace (ret <? 0) with false by (symmetry; apply Z.ltb_ge; lia).
  destruct p1 as [h ? ? ?]. cbn in Hflag. subst h. reflexivity.
Qed.

Lemma pending_picture_is_delivered_without_reading_witness :
  let '(_, p1, d1) := getNextFrame_AVFrame initial_process two_pictures_per_packet in
  let '(got, _, d2) := getNextFrame_AVFrame p1 d1 in
  got = true /\ m_frame d2 = picture 40000
  /\ read_script (m_format_context d2) = read_script (m_format_context d1)
  /\ send_script (m_codec_context d2) = send_script (m_codec_context d1).
Proof.
  destruct (getNextFrame_AVFrame initial_process two_pictures_per_packet)
    as [[got p1] d1] eqn:E.
  assert (Hgot : got = true) by (vm_compute in E; congruence). subst got.
  rewrite (pending_picture_is_delivered_without_reading
             _ _ _ _ 0 (picture 40000) [] E);
    [repeat split| |lia].
  vm_compute in E. injection E as <- <-. reflexivity.
Defined.

Lemma iteration_seeks p d :
  match iteration p d with
  | Return _ _ d' | Continue _ d' =>
      seeks_issued (m_format_context d') = seeks_issued (m_format_context d)
  end.
Proof.
  destruct d as [[ss reads sks iss] [wd ht dr sends recvs] vidx pkt frm].
  unfold iteration, read_packet, av_read_frame, avcodec_send_packet,
    avcodec_receive_frame.
  destruct (hasPendingFrames p); cbn;
    destruct reads as [|[ret idx] rest], recvs as [|[r pic] more]; cbn;
    repeat (case_if; cbn); reflexivity.
Qed.

Lemma getNextFrame_AVFrame_seeks p d :
  seeks_issued (m_format_context (snd (getNextFrame_AVFrame p d)))
  = seeks_issued (m_format_context d).
Proof.
  remember (turns p d) as n eqn:En.
  revert p d En. induction n as [n IH] using lt_wf_ind. intros p d En.
  rewrite getNextFrame_AVFrame_unfold.
  pose proof (iteration_seeks p d) as Hi.
  destruct (iteration p d) as [got p' d'|p' d'] eqn:Ei; [exact Hi|].
  apply iteration_continue in Ei. destruct Ei as (Hlt & _ & _).
  rewrite (IH (turns p' d') ltac:(lia) p' d' eq_refl). exact Hi.
Qed.

Lemma seek_loop_seeks n t :
  forall p d,
    seeks_issued (m_format_context (snd (seek_loop n t p d)))
    = seeks_issued (m_format_context d).
Proof.
  induction n as [|n IH]; intros p d; cbn [seek_loop]; [reflexivity|].
  pose proof (getNextFrame_AVFrame_seeks p d) as Hs.
  destruct (getNextFrame_AVFrame p d) as [[got p1] d1]. cbn [snd] in Hs.
  destruct got; [|exact Hs]. case_if; [exact Hs|]. rewrite IH. exact Hs.
Qed.

(** X13.  Where a seek asks the container to go.  [seekToTimestamp t] issues one
    backward seek, at the stream tick nearest to [t] microseconds; read
    back in microseconds, that tick is within half a stream tick plus half
    a microsecond of [t]. *)
Theorem seek_requests_the_tick_nearest_the_target :
  forall t p d,
    let s := getStream d in
    let tb := time_base s in
    0 < num tb -> 0 < den tb -> 0 <= t ->
    t * den tb + num tb * AV_TIME_BASE + den tb <= INT64_MAX ->
    exists ticks,
      seeks_issued (m_format_context (snd (seekToTimestamp t p d)))
      = seeks_issued (m_format_context d) ++ [ticks]
      /\ 2 * (t * den tb) - num tb * AV_TIME_BASE
         <= 2 * (num tb * AV_TIME_BASE) * ticks
         <= 2 * (t * den tb) + num tb * AV_TIME_BASE
      /\ - (num tb * AV_TIME_BASE + den tb)
         <= 2 * den tb * (microseconds_of_ticks ticks s - t)
         <= num tb * AV_TIME_BASE + den tb.
Proof.
  intros t p d s tb Hn Hd Ht Hfit.
  exists (av_rescale_q t AV_TIME_BASE_Q tb).
  assert (Hc : 0 < num tb * AV_TIME_BASE) by (unfold AV_TIME_BASE; lia).
  assert (Hticks : av_rescale_q t AV_TIME_BASE_Q tb
                   = round_div t (1 * den tb) (num tb * AV_TIME_BASE)).
  { apply (av_rescale_q_counter t AV_TIME_BASE_Q tb); cbn [num den AV_TIME_BASE_Q];
      unfold AV_TIME_BASE in *; lia. }
  pose proof (round_div_nearest t (1 * den tb) (num tb * AV_TIME_BASE) Hc) as Hnear.
  pose proof (round_div_nonneg t (1 * den tb) (num tb * AV_TIME_BASE) Ht
                ltac:(lia) Hc) as Hpos.
  rewrite <- Hticks in Hnear, Hpos.
  set (ticks := av_rescale_q t AV_TIME_BASE_Q tb) in *.
  assert (Hback : microseconds_of_ticks ticks s
                  = round_div ticks (num tb * AV_TIME_BASE) (1 * den tb)).
  { unfold microseconds_of_ticks, getBestEffortTimestampInMicroseconds.
    cbn [best_effort_timestamp]. fold tb.
    apply (av_rescale_q_counter ticks tb (mkRational 1 AV_TIME_BASE));
      cbn [num den]; unfold AV_TIME_BASE in *; lia. }
  pose proof (round_div_nearest ticks (num tb * AV_TIME_BASE) (1 * den tb)
                ltac:(lia)) as Hnear2.
  rewrite <- Hback in Hnear2.
  split; [|split].
  - unfold seekToTimestamp. fold s tb ticks.
    destruct (hd 0 (seek_script (m_format_context (avcodec_flush_buffers d))) <? 0) eqn:E.
    + unfold av_seek_frame. cbn [fst snd]. rewrite E. reflexivity.
    + unfold av_seek_frame. cbn [fst snd]. rewrite E. rewrite seek_loop_seeks.
      reflexivity.
  - lia.
  - lia.
Qed.

Lemma seek_requests_the_tick_nearest_the_target_witness :
  exists ticks,
    seeks_issued (m_format_context (snd (seekToTimestamp 33367 initial_process broadcast_clip)))
    = [] ++ [ticks]
    /\ 2 * (33367 * 90000) - 1 * 1000000
       <= 2 * (1 * 1000000) * ticks
       <= 2 * (33367 * 90000) + 1 * 1000000
    /\ - (1 * 1000000 + 90000)
       <= 2 * 90000 * (microseconds_of_ticks ticks (getStream broadcast_clip) - 33367)
       <= 1 * 1000000 + 90000.
Proof.
  apply (seek_requests_the_tick_nearest_the_target 33367 initial_process broadcast_clip);
    vm_compute; first [reflexivity | discriminate].
Defined.

End DecoderSession.

(** ** VideoDecoder: the outcomes of a call, turn by turn *)

Section DecoderOutcomes.
Import Decoder Scenario.



(** What the body of [if (!hasPendingFrames)] does, by what the container
    and the decoder answer. *)
Lemma read_packet_cases d :
  match read_script (m_format_context d) with
  | [] => read_packet d = (true, avcodec_send_packet_null d)
  | (ret, idx) :: rest =>
      let d1 := set_format (mkFormat (streams (m_format_context d)) rest
                                     (seek_script (m_format_context d))
                                     (seeks_issued (m_format_context d))) d in
      if ret =? AVERROR_EOF then read_packet d = (true, avcodec_send_packet_null d1)
      else if ret <? 0 then read_packet d = (false, d1)
      else if idx =? m_video_stream_index d
           then read_packet d
                = (negb (hd 0 (send_script (m_codec_context d)) <? 0),
                   snd (avcodec_send_packet (set_packet (mkPacket idx) d1)))
           else read_packet d = (true, set_packet (mkPacket idx) d1)
  end.
Proof.
  unfold read_packet, av_read_frame.
  destruct (read_script (m_format_context d)) as [|[ret idx] rest]; [reflexivity|].
  cbv zeta.
  destruct (ret =? AVERROR_EOF) eqn:E1.
  { apply Z.eqb_eq in E1. subst ret. reflexivity. }
  destruct (ret <? 0) eqn:E2; [reflexivity|].
  cbn [stream_index m_packet set_packet m_video_stream_index set_format].
  destruct (idx =? m_video_stream_index d) eqn:E3; [|reflexivity].
  unfold avcodec_send_packet. cbn.
  destruct (hd 0 (send_script (m_codec_context d)) <? 0); reflexivity.
Qed.


Lemma packet_phase p d :
  packet_phase_passes p d ->
  exists d0,
    (if negb (hasPendingFrames p) then read_packet d else (true, d)) = (true, d0)
    /\ recv_script (m_codec_context d0) = recv_script (m_codec_context d)
    /\ read_script (m_format_context d0)
       = (if hasPendingFrames p then read_script (m_format_context d)
          else tl (read_script (m_format_context d)))
    /\ (draining (m_codec_context d0) = false
        <-> draining (m_codec_context d) = false
            /\ (hasPendingFrames p = true \/ ~ end_of_file d)).
Proof.
  intros Hp. unfold packet_phase_passes in Hp.
  destruct (hasPendingFrames p) eqn:Hf; cbn [negb].
  { exists d. repeat split; auto. tauto. }
  destruct Hp as [Hp|Hp]; [discriminate|].
  pose proof (read_packet_cases d) as Hc. unfold end_of_file.
  destruct (read_script (m_format_context d)) as [|[ret idx] rest] eqn:Hr.
  { rewrite Hc. eexists. split; [reflexivity|]. cbn. rewrite Hr.
    repeat split; try discriminate. intros [_ [H|H]]; [discriminate|tauto]. }
  cbv zeta in Hc. destruct Hp as [Heof|[Hret Hs]].
  { subst ret. change (AVERROR_EOF =? AVERROR_EOF) with true in Hc.
    rewrite Hc. eexists. split; [reflexivity|]. cbn.
    repeat split; try discriminate. intros [_ [H|H]]; [discriminate|tauto]. }
  assert (Hne : ret <> AVERROR_EOF) by (unfold AVERROR_EOF; lia).
  replace (ret =? AVERROR_EOF) with false in Hc by (symmetry; apply Z.eqb_neq; exact Hne).
  replace (ret <? 0) with false in Hc by (symmetry; apply Z.ltb_ge; exact Hret).
  destruct (idx =? m_video_stream_index d) eqn:Ei.
  - apply Z.eqb_eq in Ei. specialize (Hs Ei).
    replace (hd 0 (send_script (m_codec_context d)) <? 0) with false in Hc
      by (symmetry; apply Z.ltb_ge; exact Hs).
    rewrite Hc. eexists. split; [reflexivity|]. cbn.
    repeat split; auto; tauto.
  - rewrite Hc. eexists. split; [reflexivity|]. cbn.
    repeat split; auto; tauto.
Qed.





Lemma turn_picture_ready p d :
  picture_ready p d ->
  exists d',
    getNextFrame_AVFrame p d = (true, set_hasPendingFrames true p, d')
    /\ exists ret,
         recv_script (m_codec_context d)
         = (ret, m_frame d') :: recv_script (m_codec_context d').
Proof.
  intros (Hp & ret & pic & more & Hr & Hret).
  destruct (packet_phase p d Hp) as (d0 & Hd0 & Kr & _).
  rewrite getNextFrame_AVFrame_unfold. unfold iteration. rewrite Hd0. cbn [negb].
  unfold avcodec_receive_frame. rewrite Kr, Hr.
  replace (ret =? AVERROR EAGAIN) with false
    by (symmetry; apply Z.eqb_neq; unfold AVERROR, EAGAIN; lia).
  replace (ret =? AVERROR_EOF) with false
    by (symmetry; apply Z.eqb_neq; unfold AVERROR_EOF; lia).
  replace (ret <? 0) with false by (symmetry; apply Z.ltb_ge; exact Hret).
  eexists. split; [reflexivity|]. exists ret. reflexivity.
Qed.



(** The public [getNextFrame] in terms of the private one. *)
Lemma getNextFrame_by_decode want_pts p d :
  let '(o, _, d') := getNextFrame want_pts p d in
  d' = snd (getNextFrame_AVFrame p d)
  /\ (fst (fst (getNextFrame_AVFrame p d)) = false -> o = Ok (false, None))
  /\ (fst (fst (getNextFrame_AVFrame p d)) = true ->
      o = if hd true (sws_script p)
          then Ok (true,
                   if want_pts
                   then Some (getBestEffortTimestampInMicroseconds
                                (m_frame d') (getStream d'))
                   else None)
          else Throw "failed to create scaling context").
Proof.
  unfold getNextFrame.
  pose proof (getNextFrame_AVFrame_effect p d) as He.
  destruct (getNextFrame_AVFrame p d) as [[got p1] d1].
  destruct He as (_ & Hp & _). cbn [fst snd].
  destruct got.
  - unfold convertAVFrameToRGBBuffer.
    assert (Hs : sws_script p1 = sws_script p) by (rewrite Hp; reflexivity).
    rewrite Hs. destruct (hd true (sws_script p)); cbn;
      (split; [reflexivity|]); (split; [discriminate|reflexivity]).
  - split; [reflexivity|]. split; [reflexivity|discriminate].
Qed.




Lemma split_twice {A : Type} (pre pre' : list A) (x x' : A) (l l' : list A) :
  pre ++ x :: l = pre' ++ x' :: l' -> In x pre' \/ x = x' \/ In x' pre.
Proof.
  revert pre'. induction pre as [|a pre IH]; intros [|a' pre'] H; cbn in H.
  - injection H as H _. auto.
  - injection H as H _. subst a'. left. left. reflexivity.
  - injection H as H _. subst a. right. right. left. reflexivity.
  - injection H as _ H. destruct (IH _ H) as [H1|[H1|H1]]; cbn; auto.
Qed.

(** The seek loop ends without success when the decoder reports end of
    stream or an error before it has given a picture that reaches the
    target. *)
Lemma seek_loop_stopped n t p d pre x more :
  recv_script (m_codec_context d) = pre ++ x :: more ->
  Forall (passed_over t (getStream d)) pre ->
  stops_decoding x ->
  fst (fst (seek_loop n t p d)) = false.
Proof.
  intros Hs Hpre [Hx1 Hx2].
  destruct (seek_loop n t p d) as [[r p'] d'] eqn:E. cbn [fst].
  destruct r; [|reflexivity]. exfalso.
  destruct (seek_loop_first _ _ _ _ _ _ E) as (pre' & ret' & Hs' & Hret' & Ht' & Hpre').
  rewrite Hs in Hs'. destruct (split_twice _ _ _ _ _ _ Hs') as [Hin|[Heq|Hin]].
  - rewrite Forall_forall in Hpre'.
    destruct (Hpre' _ Hin) as [H|[H _]]; [congruence|lia].
  - subst x. cbn in Hx1. lia.
  - rewrite Forall_forall in Hpre.
    destruct (Hpre _ Hin) as [H|[_ H]]; cbn in H; [unfold AVERROR, EAGAIN in H|]; lia.
Qed.

(** A seek that reports success leaves the pending flag set. *)
Lemma seek_loop_flag n t :
  forall p d p' d',
    seek_loop n t p d = (true, p', d') -> hasPendingFrames p' = true.
Proof.
  induction n as [|n IH]; intros p d p' d'; cbn [seek_loop]; [discriminate|].
  pose proof (getNextFrame_AVFrame_effect p d) as He.
  destruct (getNextFrame_AVFrame p d) as [[got p1] d1].
  destruct He as (_ & _ & Hd).
  destruct got; [|discriminate].
  destruct (Hd eq_refl) as (_ & Hflag & _).
  case_if.
  - intros H; injection H as <- <-. exact Hflag.
  - apply IH.
Qed.

(** The call of [getNextFrame] that follows a picture at or after the
    target. *)
Lemma getNextFrame_after want_pts t p d :
  t <= getBestEffortTimestampInMicroseconds (m_frame d) (getStream d) ->
  hasPendingFrames p = true ->
  let '(o, _, d') := getNextFrame want_pts p d in
  match o with
  | Ok (true, ts) =>
      (exists pre ret,
          recv_script (m_codec_context d)
          = pre ++ (ret, m_frame d') :: recv_script (m_codec_context d')
          /\ 0 <= ret
          /\ Forall (fun x => fst x = AVERROR EAGAIN) pre)
      /\ ts = (if want_pts
               then Some (getBestEffortTimestampInMicroseconds
                            (m_frame d') (getStream d'))
               else None)
      /\ ((forall ret f,
              In (ret, f) (recv_script (m_codec_context d)) -> 0 <= ret ->
              getBestEffortTimestampInMicroseconds (m_frame d) (getStream d)
              <= getBestEffortTimestampInMicroseconds f (getStream d)) ->
          t <= getBestEffortTimestampInMicroseconds (m_frame d') (getStream d'))
  | Ok (false, _) | Throw _ => True
  end
  /\ ((forall ret f, In (ret, f) (recv_script (m_codec_context d)) -> ret < 0) ->
      o = Ok (false, None))
  /\ (forall ret pic more,
        recv_script (m_codec_context d) = (ret, pic) :: more -> 0 <= ret ->
        o = if hd true (sws_script p)
            then Ok (true,
                     if want_pts
                     then Some (getBestEffortTimestampInMicroseconds pic (getStream d))
                     else None)
            else Throw "failed to create scaling context").
Proof.
  intros Ht Hflag.
  assert (Hready : forall ret pic more,
             recv_script (m_codec_context d) = (ret, pic) :: more -> 0 <= ret ->
             exists d1,
               getNextFrame_AVFrame p d = (true, set_hasPendingFrames true p, d1)
               /\ m_frame d1 = pic).
  { intros ret pic more Hr Hret.
    destruct (turn_picture_ready p d) as (d1 & H1 & ret1 & H2).
    - split; [left; exact Hflag|]. exists ret, pic, more. auto.
    - exists d1. split; [exact H1|]. rewrite Hr in H2. injection H2 as _ H2 _. auto. }
  pose proof (getNextFrame_outcome want_pts p d) as Ho.
  pose proof (getNextFrame_by_decode want_pts p d) as Hb.
  pose proof (getNextFrame_keeps want_pts p d) as Hk.
  destruct (getNextFrame want_pts p d) as [[o p'] d']. cbn [snd] in Hk.
  destruct Hb as (Hd' & Hfalse & Htrue).
  pose proof (getNextFrame_AVFrame_skips p d) as Hskip.
  destruct (getNextFrame_AVFrame p d) as [[got p1] d1]. cbn [fst snd] in *. subst d1.
  pose proof (turn_keeps_stream _ _ Hk) as Hst.
  split.
  - destruct o as [[[|] ts]|msg]; auto.
    destruct Ho as [_ Hts].
    destruct got.
    + destruct (Hskip p1 d' eq_refl) as (pre & ret & Hs & Hret & Hall).
      split; [exists pre, ret; auto|]. split; [exact Hts|].
      intros Hmono. rewrite Hst.
      apply Z.le_trans with (1 := Ht). apply (Hmono ret); [|exact Hret].
      rewrite Hs. apply in_or_app. right. left. reflexivity.
    + specialize (Hfalse eq_refl). discriminate.
  - split.
    + intros Hnone. destruct got; [|auto]. exfalso.
      destruct (Hskip p1 d' eq_refl) as (pre & ret & Hs & Hret & _).
      assert (ret < 0); [|lia].
      apply (Hnone ret (m_frame d')). rewrite Hs. apply in_or_app. right. left. reflexivity.
    + intros ret pic more Hr Hret.
      destruct (Hready ret pic more Hr Hret) as (d1 & H1 & H2).
      injection H1 as -> _ ->. rewrite <- H2, <- Hst. apply Htrue. reflexivity.
Qed.

(** C6, as amended.  When [seekToTimestamp t] returns [true], the picture
    it stopped on, now in [m_frame] and already taken from the decoder, has
    a normalized timestamp at or after [t].  The call of [getNextFrame]
    that follows does not deliver that picture: when it delivers one, it is
    the next picture the decoder gives, and its normalized timestamp is at
    or after [t] provided no picture still to come is earlier than the one
    the seek stopped on; it delivers the picture the decoder has ready
    (or raises the exception of the conversion); when the decoder has no
    picture left, it returns [false].  [seekToTimestamp t] returns [false] when the backward seek
    fails, when no picture still to come reaches [t], and when the decoder
    reports end of stream or an error before it has given a picture that
    reaches [t].  The duration of the stream plays no part. *)
Theorem C6_seek_stops_on_first_picture_at_or_after_target :
  forall (t : Z) (p : Process) (d : VideoDecoder),
    let '(r, p', d') := seekToTimestamp t p d in
    (r = true ->
     t <= getBestEffortTimestampInMicroseconds (m_frame d') (getStream d')
     /\ delivers d d'
     /\ forall want_pts,
          let '(o, _, d'') := getNextFrame want_pts p' d' in
          match o with
          | Ok (true, ts) =>
              (exists pre ret,
                  recv_script (m_codec_context d')
                  = pre ++ (ret, m_frame d'') :: recv_script (m_codec_context d'')
                  /\ 0 <= ret
                  /\ Forall (fun x => fst x = AVERROR EAGAIN) pre)
              /\ ts = (if want_pts
                       then Some (getBestEffortTimestampInMicroseconds
                                    (m_frame d'') (getStream d''))
                       else None)
              /\ ((forall ret f,
                      In (ret, f) (recv_script (m_codec_context d')) -> 0 <= ret ->
                      getBestEffortTimestampInMicroseconds (m_frame d') (getStream d')
                      <= getBestEffortTimestampInMicroseconds f (getStream d')) ->
                  t <= getBestEffortTimestampInMicroseconds
                         (m_frame d'') (getStream d''))
          | Ok (false, _) | Throw _ => True
          end
          /\ ((forall ret f,
                  In (ret, f) (recv_script (m_codec_context d')) -> ret < 0) ->
              o = Ok (false, None))
          /\ (forall ret pic more,
                recv_script (m_codec_context d') = (ret, pic) :: more ->
                0 <= ret ->
                o = if hd true (sws_script p')
                    then Ok (true,
                             if want_pts
                             then Some (getBestEffortTimestampInMicroseconds
                                          pic (getStream d'))
                             else None)
                    else Throw "failed to create scaling context"))
    /\ (hd 0 (seek_script (m_format_context d)) < 0 -> r = false)
    /\ ((forall ret f,
            In (ret, f) (recv_script (m_codec_context d)) -> 0 <= ret ->
            getBestEffortTimestampInMicroseconds f (getStream d) < t) ->
        r = false)
    /\ (forall pre x more,
          recv_script (m_codec_context d) = pre ++ x :: more ->
          Forall (passed_over t (getStream d)) pre ->
          stops_decoding x ->
          r = false).
Proof.
  intros t p d. unfold seekToTimestamp.
  set (tb := av_rescale_q t AV_TIME_BASE_Q (time_base (getStream d))).
  pose proof (seek_prepare_keeps tb d) as Hk. cbv zeta in Hk.
  assert (Hret : fst (av_seek_frame tb (avcodec_flush_buffers d))
                 = hd 0 (seek_script (m_format_context d))) by reflexivity.
  destruct (av_seek_frame tb (avcodec_flush_buffers d)) as [ret d0].
  cbn [fst snd] in Hk, Hret. destruct Hk as (Hr & K & Hs). subst ret.
  destruct (hd 0 (seek_script (m_format_context d)) <? 0) eqn:Eseek.
  - repeat split; auto; discriminate.
  - apply Z.ltb_ge in Eseek.
    set (n := S (List.length (recv_script (m_codec_context d0)))).
    pose proof (seek_loop_true n t p d0) as Ht.
    pose proof (seek_loop_all_before n t p d0) as Hb.
    pose proof (seek_loop_stopped n t p d0) as Hstop.
    pose proof (seek_loop_flag n t p d0) as Hflag.
    destruct (seek_loop n t p d0) as [[r p'] d']. cbn [fst] in Hb, Hstop.
    split; [|split; [|split]].
    + intros ->. destruct (Ht p' d' eq_refl) as (H1 & H2 & _).
      split; [exact H1|]. split; [eapply delivers_after; eassumption|].
      intros want_pts. apply getNextFrame_after; [exact H1|].
      apply (Hflag p' d'). reflexivity.
    + lia.
    + intros Hall. apply Hb. rewrite Hr, Hs. exact Hall.
    + intros pre x more Hsplit Hpre Hx.
      apply (Hstop pre x more); [rewrite Hr; exact Hsplit|rewrite Hs; exact Hpre|exact Hx].
Qed.


Lemma C6_seek_stops_on_first_picture_at_or_after_target_witness :
  let '(r, p', d') := seekToTimestamp 40000 initial_process three_pictures in
  r = true
  /\ let '(o, _, d'') := getNextFrame true p' d' in
     o = Ok (true, Some 80000)
     /\ 40000 <= getBestEffortTimestampInMicroseconds (m_frame d'') (getStream d'').
Proof.
  pose proof (C6_seek_stops_on_first_picture_at_or_after_target
                40000 initial_process three_pictures) as H.
  destruct (seekToTimestamp 40000 initial_process three_pictures)
    as [[r p'] d'] eqn:E.
  vm_compute in E. injection E as <- <- <-.
  split; [reflexivity|].
  destruct H as (H & _). destruct (H eq_refl) as (_ & _ & Hnext).
  specialize (Hnext true).
  destruct (getNextFrame true _ _) as [[o p''] d''] eqn:E.
  vm_compute in E. injection E as <- <- <-.
  split; [reflexivity|].
  destruct Hnext as ((_ & _ & Hmono) & _ & _). apply Hmono.
  intros ret f Hin Hret. vm_compute in Hin.
  destruct Hin as [Hin|[Hin|[]]]; injection Hin as <- <-;
    [lia|vm_compute; discriminate].
Defined.

(** C6, the claim as stated fails, in three ways.  The target is the time
    of the last picture, inside the duration: the seek returns [true]
    having decoded that picture, and the next [getNextFrame] finds the
    stream at its end (with the target on the middle picture, the next
    call yields the picture after it).  The duration is not consulted: in
    a stream that declares 50 ms and holds a picture at 80 ms, the seek to
    60 ms, beyond the duration, returns [true].  And when the decoder
    gives a picture at 10 ms after the one at 40 ms, the call that follows
    the seek to 30 ms yields a timestamp before the target. *)
Lemma C6_seek_consumes_the_picture_it_reaches :
  0 <= 80000 < getTotalDuration three_pictures
  /\ (let '(r, p, d) := seekToTimestamp 80000 initial_process three_pictures in
      r = true /\ m_frame d = picture 80000
      /\ fst (fst (getNextFrame true p d)) = Ok (false, None))
  /\ (let '(r, p, d) := seekToTimestamp 40000 initial_process three_pictures in
      r = true /\ m_frame d = picture 40000
      /\ fst (fst (getNextFrame true p d)) = Ok (true, Some 80000))
  /\ getTotalDuration late_pictures = 50000
  /\ fst (fst (seekToTimestamp 60000 initial_process late_pictures)) = true
  /\ 0 <= 30000 < getTotalDuration pictures_out_of_order
  /\ (let '(r, p, d) := seekToTimestamp 30000 initial_process pictures_out_of_order in
      r = true /\ m_frame d = picture 40000
      /\ fst (fst (getNextFrame true p d)) = Ok (true, Some 10000)).
Proof. vm_compute. repeat split; discriminate. Qed.

End DecoderOutcomes.
